(** * qa-xray-utility: the scanner and graph engine of [xray.py]

    A shallow embedding of [get_file_purpose] and [scan_project] together
    with the parts of the Python runtime they rely on ([str] methods, the
    backtracking [re] matcher, [os.walk], insertion-ordered [dict],
    [defaultdict(set)]), followed by the properties of the engine.

    Text model.  A Python [str] is a sequence of code points.  Here a
    [str] is a [list ascii] and an [ascii] stands for the code point of the
    same number, so the model covers text in the range U+0000..U+00FF.
    [lower], [\w] and [\s] follow CPython on that range. *)

From Stdlib Require Import Ascii String.
From stdpp Require Import base list sorting strings gmap sets.

Abbreviation str := (list ascii).

Coercion list_ascii_of_string : string >-> list.

(** ** Python [str] operations *)

Module Py.

Definition code (c : ascii) : nat := nat_of_ascii c.

Definition between (lo hi n : nat) : bool := (lo <=? n) && (n <=? hi).

(** [str.lower()], one code point at a time: A-Z and the upper-case
    letters of the Latin-1 block (U+00D7 is the multiplication sign). *)
Definition lower_char (c : ascii) : ascii :=
  let n := code c in
  if between 65 90 n || (between 192 222 n && negb (n =? 215))
  then ascii_of_nat (n + 32) else c.

(** The inverse direction, used by the case-insensitive matcher
    (U+00F7 is the division sign; U+00DF and U+00FF have no upper-case
    form below U+0100). *)
Definition upper_char (c : ascii) : ascii :=
  let n := code c in
  if between 97 122 n || (between 224 254 n && negb (n =? 247))
  then ascii_of_nat (n - 32) else c.

Definition lower (s : str) : str := map lower_char s.

Definition ascii_eqb (a b : ascii) : bool := Ascii.eqb a b.

(** [s.startswith(p)] *)
Fixpoint startswith (p s : str) : bool :=
  match p, s with
  | [], _ => true
  | a :: p', b :: s' => ascii_eqb a b && startswith p' s'
  | _ :: _, [] => false
  end.

(** [sub in s] *)
Fixpoint contains (sub s : str) : bool :=
  startswith sub s ||
  match s with
  | [] => false
  | _ :: s' => contains sub s'
  end.

(** [s.endswith(suffix)] *)
Definition endswith (s suffix : str) : bool :=
  startswith (rev suffix) (rev s).

(** [s.endswith(tuple)] *)
Definition endswith_any (s : str) (suffixes : list str) : bool :=
  existsb (endswith s) suffixes.

(** [s.split(sep)[-1]] for a one-character separator: the text after the
    last separator, the whole of [s] when there is none. *)
Fixpoint split_last (sep : ascii) (s : str) : str :=
  match s with
  | [] => []
  | c :: s' =>
      if existsb (ascii_eqb sep) s' then split_last sep s'
      else if ascii_eqb sep c then s' else c :: s'
  end.

(** [s.count(c, 0, stop)] *)
Definition count_upto (c : ascii) (stop : nat) (s : str) : nat :=
  length (filter (λ x, ascii_eqb c x = true) (take stop s)).

(** [s.replace(a, b)] for one-character [a] and [b]. *)
Definition replace (a b : ascii) (s : str) : str :=
  map (λ c, if ascii_eqb a c then b else c) s.

(** [sep.join(parts)] *)
Fixpoint join (sep : str) (parts : list str) : str :=
  match parts with
  | [] => []
  | [p] => p
  | p :: rest => p ++ sep ++ join sep rest
  end.

(** [x in l] for a list or set literal of strings. *)
Definition mem (x : str) (l : list str) : bool :=
  bool_decide (x ∈ l).

(** An insertion-ordered [dict]: [d[k] = v] replaces the value of an
    existing key where it stands and appends a new key at the end. *)
Fixpoint dict_set {V} (d : list (str * V)) (k : str) (v : V) : list (str * V) :=
  match d with
  | [] => [(k, v)]
  | (k', v') :: d' =>
      if bool_decide (k' = k) then (k, v) :: d' else (k', v') :: dict_set d' k v
  end.

End Py.

(** ** Configuration *)

Definition TEXT_EXTENSIONS : list str :=
  [ ".ts" : str; ".js" : str; ".py" : str; ".java" : str; ".groovy" : str;
    ".gradle" : str; ".tsx" : str; ".jsx" : str; ".sh" : str; ".yml" : str;
    ".yaml" : str; ".json" : str; ".md" : str; ".txt" : str; ".xml" : str;
    ".dockerfile" : str; ".properties" : str; ".cs" : str; ".go" : str;
    ".rb" : str; ".php" : str; ".rs" : str; ".tf" : str ].

(** ** [get_file_purpose] *)

Definition get_file_purpose (filename content : str) : string :=
  let name := Py.lower filename in
  if Py.contains "package.json" name then "📦 Node.js Dependencies"
  else if Py.contains "pom.xml" name then "📦 Maven Build Config"
  else if Py.contains "build.gradle" name then "📦 Gradle Build Config"
  else if Py.contains "requirements.txt" name then "📦 Python Dependencies"
  else if Py.contains "docker-compose" name then "🐳 Docker Services"
  else if Py.contains "dockerfile" name then "🐳 Container Definition"
  else if Py.contains "jenkinsfile" name then "🤖 Jenkins Pipeline"
  else if Py.contains "playwright.config" name then "⚙️ Playwright Config"
  else if Py.contains "cypress.config" name then "⚙️ Cypress Config"
  else if Py.contains "readme.md" name then "📖 Project Documentation"
  else if Py.contains ".env" name then "🔐 Environment Config"
  else if Py.contains ".gitignore" name then "🚫 Git Ignore"
  else if Py.contains "test" name || Py.contains "spec" name then "🧪 Test Script"
  else if Py.contains ".java" name then "☕ Java Source"
  else if Py.contains ".py" name then "🐍 Python Source"
  else if Py.contains ".js" name || Py.contains ".ts" name then "📜 JS/TS Source"
  else if Py.contains ".groovy" name then "🧪 Katalon Script"
  else if Py.contains ".cs" name then "🔷 C# Source"
  else "📝 Source File".

(** ** The [re] matcher

    Python's [re] is a backtracking matcher: alternatives are tried left to
    right, repetitions are greedy, and the first successful path gives the
    match.  [rmatch] is that search in continuation-passing style. *)

Module Re.

(** Members of a bracketed set: a literal, [\w] or [\s]. *)
Inductive cset_item :=
| CChar (c : ascii)
| CWord
| CSpace.

Inductive regex :=
| Lit (c : ascii)                          (* one literal character *)
| CSet (negated : bool) (items : list cset_item)  (* [...] and [^...] *)
| Bol                                      (* ^ *)
| Eps                                      (* the empty pattern *)
| Seq (r1 r2 : regex)
| Alt (r1 r2 : regex)                      (* r1|r2 *)
| Star (r : regex)                         (* r*, greedy *)
| Group (n : nat) (r : regex).             (* the n-th capturing group *)

Definition Plus (r : regex) : regex := Seq r (Star r).

(** Concatenation of several pieces. *)
Fixpoint Cat (l : list regex) : regex :=
  match l with
  | [] => Eps
  | [r] => r
  | r :: l' => Seq r (Cat l')
  end.

(** A run of literal characters. *)
Fixpoint Str (s : str) : regex :=
  match s with
  | [] => Eps
  | [c] => Lit c
  | c :: s' => Seq (Lit c) (Str s')
  end.

(** [\w] on U+0000..U+00FF: alphanumeric code points and the underscore. *)
Definition is_word (c : ascii) : bool :=
  let n := Py.code c in
  Py.between 48 57 n || Py.between 65 90 n || (n =? 95) || Py.between 97 122 n
  || (n =? 170) || (n =? 178) || (n =? 179) || (n =? 181) || (n =? 185)
  || (n =? 186) || Py.between 188 190 n || Py.between 192 214 n
  || Py.between 216 246 n || Py.between 248 255 n.

(** [\s] on U+0000..U+00FF. *)
Definition is_space (c : ascii) : bool :=
  let n := Py.code c in
  Py.between 9 13 n || Py.between 28 32 n || (n =? 133) || (n =? 160).

Definition item_has (i : cset_item) (x : ascii) : bool :=
  match i with
  | CChar c => Py.ascii_eqb c x
  | CWord => is_word x
  | CSpace => is_space x
  end.

Definition set_has (items : list cset_item) (x : ascii) : bool :=
  existsb (λ i, item_has i x) items.

(** With [re.IGNORECASE] a character is compared through its case
    variants. *)
Definition lit_matches (ignorecase : bool) (c x : ascii) : bool :=
  if ignorecase
  then Py.ascii_eqb (Py.lower_char c) (Py.lower_char x)
  else Py.ascii_eqb c x.

Definition cset_matches (ignorecase negated : bool)
    (items : list cset_item) (x : ascii) : bool :=
  let hit :=
    if ignorecase
    then set_has items x || set_has items (Py.lower_char x)
         || set_has items (Py.upper_char x)
    else set_has items x in
  xorb negated hit.

(** Captured text by group number, most recent first. *)
Definition captures := list (nat * str).

Fixpoint capture (n : nat) (caps : captures) : option str :=
  match caps with
  | [] => None
  | (k, s) :: caps' => if k =? n then Some s else capture n caps'
  end.

Definition cont := nat → str → captures → option (nat * captures).

(** [rmatch ic r pos s caps k]: match [r] at offset [pos], where [s] is the
    text from [pos] on, then continue with [k]; [None] makes the caller
    backtrack.  An iteration of [Star] that consumes nothing is cut, and
    the length of the remaining text bounds the number of iterations. *)
Fixpoint rmatch (ic : bool) (r : regex) (pos : nat) (s : str)
    (caps : captures) (k : cont) {struct r} : option (nat * captures) :=
  match r with
  | Lit c =>
      match s with
      | x :: s' => if lit_matches ic c x then k (S pos) s' caps else None
      | [] => None
      end
  | CSet negated items =>
      match s with
      | x :: s' =>
          if cset_matches ic negated items x then k (S pos) s' caps else None
      | [] => None
      end
  | Bol => if pos =? 0 then k pos s caps else None
  | Eps => k pos s caps
  | Seq r1 r2 =>
      rmatch ic r1 pos s caps (λ pos' s' caps', rmatch ic r2 pos' s' caps' k)
  | Alt r1 r2 =>
      match rmatch ic r1 pos s caps k with
      | Some res => Some res
      | None => rmatch ic r2 pos s caps k
      end
  | Star r1 =>
      (fix loop (fuel : nat) (pos : nat) (s : str) (caps : captures)
         : option (nat * captures) :=
         match fuel with
         | 0 => k pos s caps
         | S fuel' =>
             match rmatch ic r1 pos s caps
                     (λ pos' s' caps',
                        if pos <? pos' then loop fuel' pos' s' caps' else None)
             with
             | Some res => Some res
             | None => k pos s caps
             end
         end) (length s) pos s caps
  | Group n r1 =>
      rmatch ic r1 pos s caps
        (λ pos' s' caps', k pos' s' ((n, take (pos' - pos) s) :: caps'))
  end.

(** The match that starts exactly at [pos], if any: its end offset and
    captures. *)
Definition match_at (ic : bool) (r : regex) (pos : nat) (s : str)
    : option (nat * captures) :=
  rmatch ic r pos s [] (λ pos' _ caps', Some (pos', caps')).

(** The number of capturing groups of a pattern: groups are numbered from
    1 in the order of their opening parenthesis, so this is the highest
    group number. *)
Fixpoint ngroups (r : regex) : nat :=
  match r with
  | Lit _ | CSet _ _ | Bol | Eps => 0
  | Seq r1 r2 | Alt r1 r2 => ngroups r1 `max` ngroups r2
  | Star r1 => ngroups r1
  | Group n r1 => n `max` ngroups r1
  end.

(** A match object: [m.start()], [m.end()], [m.group(0)] and [m.groups()]
    (a group that took no part in the match is [None]). *)
Record Match := {
  m_start : nat;
  m_end : nat;
  m_text : str;
  m_groups : list (option str)
}.

Definition mk_match (r : regex) (pos : nat) (s : str)
    (res : nat * captures) : Match :=
  {| m_start := pos;
     m_end := res.1;
     m_text := take (res.1 - pos) s;
     m_groups := map (λ n, capture n res.2) (seq 1 (ngroups r)) |}.

(** The scan behind [finditer] and [findall]: leftmost matches, left to
    right, without overlap.  [skip] counts the characters of the previous
    match still to step over; after an empty match the scan resumes one
    character further. *)
Fixpoint scan (ic : bool) (r : regex) (pos skip : nat) (s : str)
    {struct s} : list Match :=
  match skip with
  | S skip' =>
      match s with
      | [] => []
      | _ :: s' => scan ic r (S pos) skip' s'
      end
  | 0 =>
      match match_at ic r pos s with
      | Some res =>
          mk_match r pos s res ::
          match s with
          | [] => []
          | _ :: s' => scan ic r (S pos) (pred (res.1 - pos)) s'
          end
      | None =>
          match s with
          | [] => []
          | _ :: s' => scan ic r (S pos) 0 s'
          end
      end
  end.

(** [re.finditer(pattern, string, flags)] *)
Definition finditer (ic : bool) (r : regex) (s : str) : list Match :=
  scan ic r 0 0 s.

(** What [re.findall] returns per match: a string when the pattern has at
    most one group, a tuple of strings when it has more. *)
Inductive findall_item :=
| FStr (s : str)
| FTuple (l : list str).

Definition findall_of (m : Match) : findall_item :=
  match m_groups m with
  | [] => FStr (m_text m)
  | [g] => FStr (default [] g)
  | gs => FTuple (map (default []) gs)
  end.

(** [re.findall(pattern, string)] *)
Definition findall (r : regex) (s : str) : list findall_item :=
  map findall_of (finditer false r s).

End Re.

(** ** Patterns

    The source text of each pattern is quoted above its term, with the
    double quote written [\x22]. *)

Section Patterns.
Import Re.
Local Open Scope char_scope.

Definition dquote : ascii := "034".
Definition squote : ascii := "'".

(** [\s] *)
Definition ws : regex := CSet false [CSpace].
(** [['\x22]] and [[^'\x22]] *)
Definition quote : regex := CSet false [CChar squote; CChar dquote].
Definition not_quote : regex := CSet true [CChar squote; CChar dquote].
(** [[\w\.]] *)
Definition dotted : regex := CSet false [CWord; CChar "."].

(** [(?:import|export)\s+(?:[\w\s{},*]+)\s+from\s+['\x22]([^'\x22]+)['\x22]|require\(['\x22]([^'\x22]+)['\x22]\)] *)
Definition es_import : regex :=
  Alt
    (Cat [ Alt (Str "import"%string) (Str "export"%string);
           Plus ws;
           Plus (CSet false [CWord; CSpace; CChar "{"; CChar "}"; CChar ","; CChar "*"]);
           Plus ws;
           Str "from"%string;
           Plus ws;
           quote; Group 1 (Plus not_quote); quote ])
    (Cat [ Str "require("%string;
           quote; Group 2 (Plus not_quote); quote;
           Lit ")" ]).

(** [^(?:from|import)\s+([\w\.]+)] *)
Definition py_import : regex :=
  Cat [ Bol; Alt (Str "from"%string) (Str "import"%string); Plus ws;
        Group 1 (Plus dotted) ].

(** [^import\s+([\w\.]+);] *)
Definition java_import : regex :=
  Cat [ Bol; Str "import"%string; Plus ws; Group 1 (Plus dotted); Lit ";" ].

(** [^import\s+([\w\.]+)] *)
Definition groovy_import : regex :=
  Cat [ Bol; Str "import"%string; Plus ws; Group 1 (Plus dotted) ].

Definition IMPORT_PATTERNS : list (str * regex) :=
  [ ("ts"%string : str, es_import);
    ("js"%string : str, es_import);
    ("py"%string : str, py_import);
    ("java"%string : str, java_import);
    ("groovy"%string : str, groovy_import) ].

(** [\s*=\s*[\x22'][^\x22']+[\x22']] *)
Definition assigned_literal : regex :=
  Cat [ Star ws; Lit "="; Star ws; quote; Plus not_quote; quote ].

(** [(password|passwd|pwd)\s*=\s*[\x22'][^\x22']+[\x22']] *)
Definition password_pat : regex :=
  Seq (Group 1 (Alt (Str "password"%string)
               (Alt (Str "passwd"%string) (Str "pwd"%string))))
      assigned_literal.

(** [(api_key|secret|token)\s*=\s*[\x22'][^\x22']+[\x22']] *)
Definition secret_pat : regex :=
  Seq (Group 1 (Alt (Str "api_key"%string)
               (Alt (Str "secret"%string) (Str "token"%string))))
      assigned_literal.

(** [(time\.sleep|Thread\.sleep|await\s+page\.waitForTimeout|WebUI\.delay)] *)
Definition sleep_pat : regex :=
  Group 1 (Alt (Str "time.sleep"%string)
          (Alt (Str "Thread.sleep"%string)
          (Alt (Cat [ Str "await"%string; Plus ws;
                      Str "page.waitForTimeout"%string ])
               (Str "WebUI.delay"%string)))).

(** [(console\.log|System\.out\.print|print\(|println)] *)
Definition log_pat : regex :=
  Group 1 (Alt (Str "console.log"%string)
          (Alt (Str "System.out.print"%string)
          (Alt (Str "print("%string) (Str "println"%string)))).

(** (name, pattern, severity, fix) *)
Definition RISK_PATTERNS : list (string * regex * string * string) :=
  [ ("🛑 Hardcoded Password"%string, password_pat, "High"%string,
     "Move to environment variables."%string);
    ("🛑 API Key / Secret"%string, secret_pat, "Critical"%string,
     "Revoke and use a Vault."%string);
    ("⚠️ Hardcoded Sleep"%string, sleep_pat, "Medium"%string,
     "Use explicit waits."%string);
    ("⚠️ Console Log"%string, log_pat, "Low"%string,
     "Use a Logger."%string) ].

End Patterns.

(** ** Records *)

(** The dict appended to [risks]: keys [type], [line], [severity], [fix]. *)
Record RiskFinding := {
  risk_type : string;
  line : nat;
  severity : string;
  risk_fix : string
}.

(** The dict stored in [files_data] under the relative path. *)
Record FileRecord := {
  purpose : string;
  risks : list RiskFinding;
  objectives : list string;
  raw_imports : list str
}.

(** The dict appended to [graph_edges]. *)
Record GraphEdge := {
  source : str;
  target : str
}.

Global Instance RiskFinding_eq_dec : EqDecision RiskFinding.
Proof. solve_decision. Defined.
Global Instance GraphEdge_eq_dec : EqDecision GraphEdge.
Proof. solve_decision. Defined.

(** ** The body of the per-file loop of [scan_project] *)

Definition newline : ascii := "010"%char.

(** [{"type": rname, "line": content.count('\n', 0, m.start()) + 1, ...}] *)
Definition finding (content : str) (entry : string * Re.regex * string * string)
    (m : Re.Match) : RiskFinding :=
  let '(rname, pat, sev, fix_) := entry in
  {| risk_type := rname;
     line := Py.count_upto newline (Re.m_start m) content + 1;
     severity := sev;
     risk_fix := fix_ |}.

(** The findings of one catalogue entry:
    [for m in re.finditer(pat, content, re.IGNORECASE)]. *)
Definition entry_risks (content : str)
    (entry : string * Re.regex * string * string) : list RiskFinding :=
  map (finding content entry) (Re.finditer true entry.1.1.2 content).

(** [for rname, pat, severity, fix in RISK_PATTERNS: for m in ...: risks.append(...)] *)
Definition scan_risks (content : str) : list RiskFinding :=
  flat_map (entry_risks content) RISK_PATTERNS.

Definition is_test_name (f : str) : bool :=
  Py.contains "test" (Py.lower f) || Py.contains "spec" (Py.lower f).

Definition scan_objectives (f content : str) : list string :=
  if is_test_name f then
    if Py.contains "@Test" content then ["Java/TestNG Test"]
    else if Py.contains "test(" content then ["JS/Playwright Test"]
    else ["Automated Script"]
  else [].

(** [next((x for x in m if x), None)]: [m] is what [re.findall] returned for
    one match.  Iterating a tuple yields its strings; iterating a string
    yields its characters, each a one-character string. *)
Definition first_truthy (m : Re.findall_item) : option str :=
  match m with
  | Re.FTuple l => head (filter (λ x : str, x ≠ []) l)
  | Re.FStr s => head (filter (λ x : str, x ≠ []) (map (λ c, [c]) s))
  end.

(** [key in IMPORT_PATTERNS] and [IMPORT_PATTERNS[key]] *)
Fixpoint import_pattern (table : list (str * Re.regex)) (key : str) : option Re.regex :=
  match table with
  | [] => None
  | (k, pat) :: table' =>
      if bool_decide (k = key) then Some pat else import_pattern table' key
  end.

Definition import_key (f : str) : str :=
  let ext := "."%char :: Py.split_last "."%char f in
  drop 1 ext.

(** [imp = next(...)] then [if imp: imports.append(imp)] *)
Definition import_token (m : Re.findall_item) : list str :=
  match first_truthy m with
  | Some imp => if bool_decide (imp ≠ []) then [imp] else []
  | None => []
  end.

Definition scan_imports (f content : str) : list str :=
  match import_pattern IMPORT_PATTERNS (import_key f) with
  | Some pat => flat_map import_token (Re.findall pat content)
  | None => []
  end.

(** The record stored for file name [f] with text [content]. *)
Definition file_record (f content : str) : FileRecord :=
  {| purpose := get_file_purpose f content;
     risks := scan_risks content;
     objectives := scan_objectives f content;
     raw_imports := scan_imports f content |}.

(** File admission:
    [f.endswith(TEXT_EXTENSIONS) or f in ['Dockerfile', 'Jenkinsfile']] *)
Definition eligible (f : str) : bool :=
  Py.endswith_any f TEXT_EXTENSIONS
  || Py.mem f ["Dockerfile" : str; "Jenkinsfile" : str].

(** ** The directory tree and [os.walk] *)

#[local] Set Warnings "-register-all".

(** What a path names.  A file whose [open] or read fails has no content; a
    directory whose listing fails has no listing. *)
Inductive node :=
| File (name : str) (content : option str)
| Dir (name : str) (listing : option (list node)).

Definition dir_names (entries : list node) : list str :=
  flat_map (λ n, match n with Dir d _ => [d] | File _ _ => [] end) entries.

Definition file_entries (entries : list node) : list (str * option str) :=
  flat_map (λ n, match n with File f c => [(f, c)] | Dir _ _ => [] end) entries.

(** One triple yielded by [os.walk]: the directory, as the chain of names
    leading to it from the root of the walk, its sub-directories as the
    caller left them, and its files. *)
Record walk_step := {
  w_top : list str;
  w_dirs : list str;
  w_files : list (str * option str)
}.

(** [os.walk(top)], top-down, with the default [onerror=None]: a directory
    that cannot be listed yields nothing and raises nothing.  The caller
    edits the yielded [dirs] in place before the walk goes on;
    [dirs[:] = [d for d in dirs if keep(d)]] is the edit made here, so the
    walk descends into the kept sub-directories only, in listing order. *)
Fixpoint os_walk (keep : str → bool) (top : list str) (n : node)
    {struct n} : list walk_step :=
  match n with
  | Dir _ (Some entries) =>
      {| w_top := top;
         w_dirs := filter (λ d, keep d = true) (dir_names entries);
         w_files := file_entries entries |} ::
      (fix descend (l : list node) : list walk_step :=
         match l with
         | [] => []
         | c :: l' =>
             match c with
             | Dir d _ =>
                 if keep d then os_walk keep (top ++ [d]) c else []
             | File _ _ => []
             end ++ descend l'
         end) entries
  | Dir _ None => []
  | File _ _ => []
  end.

(** ** [scan_project] *)

Definition IGNORED : list str :=
  [ "node_modules" : str; ".git" : str; "venv" : str; "dist" : str;
    "bin" : str; "obj" : str; ".idea" : str; "target" : str;
    ".vscode" : str ].

(** [d not in IGNORED] *)
Definition not_ignored (d : str) : bool := negb (Py.mem d IGNORED).

(** [os.path.relpath(os.path.join(root, f), root_dir).replace('\\', '/')]
    for the directory reached from [root_dir] through [top]. *)
Definition rel_path (top : list str) (f : str) : str :=
  Py.replace "\"%char "/"%char (Py.join "/" (top ++ [f])).

Abbreviation files_data_t := (list (str * FileRecord)).

(** The body of [for f in files]; a failure inside [try] is swallowed by
    [except: pass] and leaves [files_data] as it was. *)
Definition visit_file (top : list str) (files_data : files_data_t)
    (entry : str * option str) : files_data_t :=
  let '(f, opened) := entry in
  if eligible f then
    match opened with
    | Some content =>
        Py.dict_set files_data (rel_path top f) (file_record f content)
    | None => files_data
    end
  else files_data.

(** The body of [for root, dirs, files in os.walk(root_dir)]. *)
Definition visit_dir (files_data : files_data_t) (step : walk_step)
    : files_data_t :=
  fold_left (visit_file (w_top step)) (w_files step) files_data.

Definition walk_project (root : option node) : list walk_step :=
  match root with
  | Some n => os_walk not_ignored [] n
  | None => []
  end.

Definition scan_files (root : option node) : files_data_t :=
  fold_left visit_dir (walk_project root) [].

(** [os.path.basename] *)
Definition basename (p : str) : str := Py.split_last "/"%char p.

Abbreviation used_by_t := (gmap str (gset str)).

(** The body of [for imp in data['raw_imports']]; [used_by[tgt].add(src)]
    on a [defaultdict(set)] creates the set on first use. *)
Definition add_import (src : str) (acc : list GraphEdge * used_by_t)
    (imp : str) : list GraphEdge * used_by_t :=
  let tgt := Py.split_last "/"%char imp in
  if bool_decide (tgt ≠ []) && (1 <? length tgt) then
    (acc.1 ++ [{| source := basename src; target := tgt |}],
     <[tgt := default ∅ (acc.2 !! tgt) ∪ {[src]}]> acc.2)
  else acc.

Definition add_file (acc : list GraphEdge * used_by_t)
    (item : str * FileRecord) : list GraphEdge * used_by_t :=
  fold_left (add_import item.1) (raw_imports item.2) acc.

(** [for src, data in files_data.items(): ...] *)
Definition build_graph (files_data : files_data_t)
    : list GraphEdge * used_by_t :=
  fold_left add_file files_data ([], ∅).

(** How a call ends: with a value or with an exception. *)
Inductive outcome (A : Type) :=
| Returned (a : A)
| Raised (exn : string).
Arguments Returned {A} a.
Arguments Raised {A} exn.

(** [scan_project(root_dir)], where [root] is what [root_dir] names: nothing
    when the path does not exist.  Neither loop has a path that raises:
    [os.walk] swallows listing errors and the per-file [try] swallows the
    rest. *)
Definition scan_project (root : option node)
    : outcome (files_data_t * list GraphEdge * used_by_t) :=
  let files_data := scan_files root in
  let '(graph_edges, used_by) := build_graph files_data in
  Returned (files_data, graph_edges, used_by).

(** ** The purpose cascade as a rule table

    The reading of [get_file_purpose] as an ordered table of
    (substring, tag) rules with a default, to be compared with the chain of
    [if] statements above. *)

Definition PURPOSE_RULES : list (str * string) :=
  [ ("package.json" : str, "📦 Node.js Dependencies");
    ("pom.xml" : str, "📦 Maven Build Config");
    ("build.gradle" : str, "📦 Gradle Build Config");
    ("requirements.txt" : str, "📦 Python Dependencies");
    ("docker-compose" : str, "🐳 Docker Services");
    ("dockerfile" : str, "🐳 Container Definition");
    ("jenkinsfile" : str, "🤖 Jenkins Pipeline");
    ("playwright.config" : str, "⚙️ Playwright Config");
    ("cypress.config" : str, "⚙️ Cypress Config");
    ("readme.md" : str, "📖 Project Documentation");
    (".env" : str, "🔐 Environment Config");
    (".gitignore" : str, "🚫 Git Ignore");
    ("test" : str, "🧪 Test Script");
    ("spec" : str, "🧪 Test Script");
    (".java" : str, "☕ Java Source");
    (".py" : str, "🐍 Python Source");
    (".js" : str, "📜 JS/TS Source");
    (".ts" : str, "📜 JS/TS Source");
    (".groovy" : str, "🧪 Katalon Script");
    (".cs" : str, "🔷 C# Source") ].

Definition GENERIC_PURPOSE : string := "📝 Source File".

Fixpoint first_rule (rules : list (str * string)) (name : str) : string :=
  match rules with
  | [] => GENERIC_PURPOSE
  | (sub, tag) :: rules' =>
      if Py.contains sub name then tag else first_rule rules' name
  end.

(** The dependency-manifest rules are the first four of the table. *)
Definition MANIFEST_RULES : list (str * string) := take 4 PURPOSE_RULES.

Definition is_manifest_name (filename : str) : bool :=
  existsb (λ rule : str * string, Py.contains rule.1 (Py.lower filename))
          MANIFEST_RULES.

(** ** Vocabulary of the statements *)

(** The raw import token the extractor is described to emit for a match:
    its first non-empty captured group, nothing when every group is empty. *)
Definition first_group_token (m : Re.Match) : list str :=
  match head (filter (λ g : str, g ≠ []) (map (default []) (Re.m_groups m))) with
  | Some g => [g]
  | None => []
  end.

Definition group_tokens (pat : Re.regex) (content : str) : list str :=
  flat_map first_group_token (Re.finditer false pat content).

(** Each reported risk match with the catalogue entry it belongs to, in the
    order in which [scan_risks] appends the findings. *)
Definition risk_matches (content : str)
    : list ((string * Re.regex * string * string) * Re.Match) :=
  flat_map (λ entry, map (pair entry) (Re.finditer true entry.1.1.2 content))
           RISK_PATTERNS.

(** Sample texts. *)
Definition sample_two_risks : str :=
  ("print(1)" : str) ++ newline :: ("password = 'x'" : str).

Definition sample_password : str :=
  ("x = 1" : str) ++ newline :: ("password = 'hunter2'" : str).

Definition sample_password_match : Re.Match :=
  {| Re.m_start := 6;
     Re.m_end := 26;
     Re.m_text := "password = 'hunter2'";
     Re.m_groups := [Some ("password" : str)] |}.

Definition password_entry : string * Re.regex * string * string :=
  ("🛑 Hardcoded Password", password_pat, "High",
   "Move to environment variables.").

Global Instance Match_eq_dec : EqDecision Re.Match.
Proof. solve_decision. Defined.

(** An edge is made from an import whose last path segment is longer than
    one character. *)
Definition makes_edge (imp : str) : bool :=
  1 <? length (Py.split_last "/"%char imp).

(** The edges one file contributes, one per qualifying import, in order. *)
Definition file_edges (item : str * FileRecord) : list GraphEdge :=
  flat_map (λ imp,
      if makes_edge imp
      then [{| source := basename item.1;
               target := Py.split_last "/"%char imp |}]
      else [])
    (raw_imports item.2).

Definition sample_files_data : files_data_t :=
  [ ("src/login.js" : str,
     {| purpose := "📜 JS/TS Source"; risks := []; objectives := [];
        raw_imports := [ "./x" : str; "../utils/auth" : str;
                         "../utils/auth" : str ] |}) ].

(** [dir_at n chain entries]: following the directory names of [chain]
    down from [n] leads to a directory that lists [entries]. *)
Inductive dir_at : node → list str → list node → Prop :=
| dir_at_here d entries :
    dir_at (Dir d (Some entries)) [] entries
| dir_at_below d entries sub listing chain es :
    Dir sub listing ∈ entries →
    dir_at (Dir sub listing) chain es →
    dir_at (Dir d (Some entries)) (sub :: chain) es.

(** What one step of the descent of [os_walk] yields for a child. *)
Definition walk_child (keep : str → bool) (top : list str) (c : node)
    : list walk_step :=
  match c with
  | Dir d _ => if keep d then os_walk keep (top ++ [d]) c else []
  | File _ _ => []
  end.

(** A root that cannot be scanned: the path names nothing, or names a
    directory whose listing fails. *)
Definition root_unavailable (root : option node) : Prop :=
  root = None ∨ ∃ d, root = Some (Dir d None).

Definition sample_tree : node :=
  Dir "proj" (Some
    [ File "README.md" (Some ("docs" : str));
      Dir "node_modules" (Some
        [ File "lib.js" (Some ("require('fs')" : str)) ]);
      Dir "src" (Some
        [ File "login.js" (Some ("const a = require('../utils/auth')" : str));
          File "secret.py" None;
          File "tool.exe" (Some ("password = 'x'" : str));
          Dir "target" (Some [ File "out.js" (Some ("print(1)" : str)) ]) ]) ]).

(** What the builder maintains: every edge target and every key of the
    reverse index is longer than one character. *)
Definition long_targets (acc : list GraphEdge * used_by_t) : Prop :=
  Forall (λ e, 1 < length (target e)) acc.1
  ∧ ∀ tgt, is_Some (acc.2 !! tgt) → 1 < length tgt.

(** Where a record comes from: an eligible file of a visited directory
    whose content could be read. *)
Definition from_step (step : walk_step) (item : str * FileRecord) : Prop :=
  ∃ f content,
    (f, Some content) ∈ w_files step
    ∧ eligible f = true
    ∧ item = (rel_path (w_top step) f, file_record f content).

(** Induction over a directory tree. *)
Fixpoint node_induction (P : node → Prop)
    (Hfile : ∀ f c, P (File f c))
    (Hnone : ∀ d, P (Dir d None))
    (Hdir : ∀ d entries, Forall P entries → P (Dir d (Some entries)))
    (n : node) {struct n} : P n :=
  match n with
  | File f c => Hfile f c
  | Dir d None => Hnone d
  | Dir d (Some entries) =>
      Hdir d entries
        ((fix all (l : list node) : Forall P l :=
            match l with
            | [] => List.Forall_nil P
            | c :: l' =>
                List.Forall_cons P c l'
                  (node_induction P Hfile Hnone Hdir c) (all l')
            end) entries)
  end.

(** ** Vocabulary of the further properties *)

(** Whether a pattern can match without consuming a character. *)
Fixpoint nullable (r : Re.regex) : bool :=
  match r with
  | Re.Lit _ | Re.CSet _ _ => false
  | Re.Bol | Re.Eps => true
  | Re.Seq r1 r2 => nullable r1 && nullable r2
  | Re.Alt r1 r2 => nullable r1 || nullable r2
  | Re.Star _ => true
  | Re.Group _ r1 => nullable r1
  end.

(** Whether a pattern can match only at the very start of the text: it
    begins with [^], which without [re.MULTILINE] holds at offset 0 only. *)
Fixpoint anchored (r : Re.regex) : bool :=
  match r with
  | Re.Bol => true
  | Re.Seq r1 _ => anchored r1
  | Re.Alt r1 r2 => anchored r1 && anchored r2
  | Re.Group _ r1 => anchored r1
  | Re.Lit _ | Re.CSet _ _ | Re.Eps | Re.Star _ => false
  end.

(** The patterns the scanner uses. *)
Definition SOURCE_PATTERNS : list Re.regex :=
  map snd IMPORT_PATTERNS ++ map (λ entry, entry.1.1.2) RISK_PATTERNS.

(** [src] has a raw import whose last path segment is [tgt] and is long
    enough to make an edge. *)
Definition imports_target (files_data : files_data_t) (src tgt : str) : Prop :=
  ∃ data imp,
    (src, data) ∈ files_data
    ∧ imp ∈ raw_imports data
    ∧ makes_edge imp = true
    ∧ Py.split_last "/"%char imp = tgt.

(** ** The counters and the hub ranking of [generate_report] *)

(** [total_files = len(files_data)] *)
Definition total_files (files_data : files_data_t) : nat :=
  length files_data.

(** [total_tests = sum(len(d['objectives']) for d in files_data.values())] *)
Definition total_tests (files_data : files_data_t) : nat :=
  sum_list (map (λ item : str * FileRecord, length (objectives item.2))
                files_data).

(** [total_risks = sum(len(d['risks']) for d in files_data.values())] *)
Definition total_risks (files_data : files_data_t) : nat :=
  sum_list (map (λ item : str * FileRecord, length (risks item.2))
                files_data).

(** [sorted(items, key=lambda x: len(x[1]), reverse=True)] is a stable sort
    into non-increasing order of the size of the set: an item is placed
    after the items of strictly larger size and before the later items of
    its own size. *)
Fixpoint insert_hub (x : str * gset str) (l : list (str * gset str))
    : list (str * gset str) :=
  match l with
  | [] => [x]
  | y :: l' =>
      if size x.2 <? size y.2 then y :: insert_hub x l' else x :: y :: l'
  end.

Definition sorted_hubs (items : list (str * gset str))
    : list (str * gset str) :=
  foldr insert_hub [] items.

(** [critical_hubs = sorted(used_by.items(), ...)[:6]], where [items] is
    [used_by.items()] in the iteration order of the dict. *)
Definition critical_hubs (items : list (str * gset str))
    : list (str * gset str) :=
  take 6 (sorted_hubs items).

(** ** The analysis loop of [generate_heuristic_readme]

    Purpose tags are kept as the bytes of their UTF-8 text; the substrings
    looked for are ASCII, so the containment tests agree with those on code
    points. *)

Definition heuristic_step (acc : gset string * list string)
    (item : str * FileRecord) : gset string * list string :=
  let p : str := purpose item.2 in
  let tech_stack := acc.1 in
  let capabilities := acc.2 in
  let tech_stack :=
    if Py.contains "Node.js" p then tech_stack ∪ {["Node.js"]} else tech_stack in
  let tech_stack :=
    if Py.contains "Maven" p then tech_stack ∪ {["Java (Maven)"]} else tech_stack in
  let tech_stack :=
    if Py.contains "Python" p then tech_stack ∪ {["Python"]} else tech_stack in
  let capabilities :=
    if Py.contains "Docker" p
    then capabilities ++ ["Containerized (Docker)"] else capabilities in
  let capabilities :=
    if Py.contains "Playwright" p
    then capabilities ++ ["Browser Automation (Playwright)"] else capabilities in
  let capabilities :=
    if Py.contains "Jenkins" p
    then capabilities ++ ["CI/CD (Jenkins)"] else capabilities in
  (tech_stack, capabilities).

(** [tech_stack] and [capabilities] after the loop over [files_data]. *)
Definition heuristic_summary (files_data : files_data_t)
    : gset string * list string :=
  fold_left heuristic_step files_data (∅, []).

(** Every tag [get_file_purpose] can return. *)
Definition ALL_PURPOSES : list string :=
  map snd PURPOSE_RULES ++ [GENERIC_PURPOSE].

(** What one purpose adds to the technology stack and to the capabilities. *)
Definition stack_of (p : string) : list string :=
  (if Py.contains "Node.js" (p : str) then ["Node.js"] else [])
  ++ (if Py.contains "Maven" (p : str) then ["Java (Maven)"] else [])
  ++ (if Py.contains "Python" (p : str) then ["Python"] else []).

Definition capabilities_of (p : string) : list string :=
  (if Py.contains "Docker" (p : str) then ["Containerized (Docker)"] else [])
  ++ (if Py.contains "Playwright" (p : str)
      then ["Browser Automation (Playwright)"] else [])
  ++ (if Py.contains "Jenkins" (p : str) then ["CI/CD (Jenkins)"] else []).

(** Which purpose tag gives which technology, and which capability. *)
Definition STACK_TABLE : list (string * string) :=
  [ ("Node.js", "📦 Node.js Dependencies");
    ("Java (Maven)", "📦 Maven Build Config");
    ("Python", "📦 Python Dependencies");
    ("Python", "🐍 Python Source") ].

Definition CAPABILITY_TABLE : list (string * string) :=
  [ ("Containerized (Docker)", "🐳 Docker Services");
    ("Browser Automation (Playwright)", "⚙️ Playwright Config");
    ("CI/CD (Jenkins)", "🤖 Jenkins Pipeline") ].

(** The order of the hub ranking: no fewer references than what follows. *)
Definition outranks (a b : str * gset str) : Prop := size b.2 ≤ size a.2.

(** The badge of a row of the risk table in [generate_report]:
    ["bg-danger" if r['severity'] == "Critical" else "bg-warning text-dark"] *)
Definition badge (r : RiskFinding) : string :=
  if bool_decide (severity r = "Critical") then "bg-danger"
  else "bg-warning text-dark".

(** ** Proof automation *)

(** Decide a closed decidable proposition by evaluation. *)
Ltac by_compute := apply (bool_decide_unpack _); vm_compute; exact I.

(** Walk down the chain of [if]s of [get_file_purpose], one test at a time. *)
Ltac cascade name :=
  repeat lazymatch goal with
  | |- context [if Py.contains ?sub name || _ then _ else _] =>
      destruct (Py.contains sub name) eqn:?; cbn [orb]
  | |- context [if Py.contains ?sub name then _ else _] =>
      destruct (Py.contains sub name) eqn:?
  end.

(** * Properties *)

(** ** Strings *)

Lemma ascii_eqb_eq (a b : ascii) : Py.ascii_eqb a b = true ↔ a = b.
Proof. apply Ascii.eqb_eq. Qed.

Lemma startswith_prefix (p s : str) :
  Py.startswith p s = true ↔ ∃ t, s = p ++ t.
Proof.
  revert s. induction p as [|a p IH]; intros s; simpl.
  - split; [eauto | done].
  - destruct s as [|b s]; simpl.
    + split; [done | intros [t Ht]; discriminate].
    + rewrite andb_true_iff, ascii_eqb_eq, IH. split.
      * intros [-> [t ->]]. eauto.
      * intros [t Ht]. injection Ht as -> ->. eauto.
Qed.

Lemma endswith_suffix (s suffix : str) :
  Py.endswith s suffix = true ↔ ∃ t, s = t ++ suffix.
Proof.
  unfold Py.endswith. rewrite startswith_prefix. split.
  - intros [t Ht]. exists (rev t).
    rewrite <- (rev_involutive s), Ht, rev_app_distr, rev_involutive. done.
  - intros [t ->]. exists (rev t). apply rev_app_distr.
Qed.

Lemma split_last_without_sep (sep : ascii) (s : str) :
  sep ∉ s → Py.split_last sep s = s.
Proof.
  induction s as [|c s IH]; intros Hs; [done|]. simpl.
  apply not_elem_of_cons in Hs as [Hc Hs].
  destruct (existsb (Py.ascii_eqb sep) s) eqn:E.
  - apply existsb_exists in E as (x & Hx & Hsep).
    apply ascii_eqb_eq in Hsep as <-.
    apply list_elem_of_In in Hx. done.
  - destruct (Py.ascii_eqb sep c) eqn:Ec; [|done].
    apply ascii_eqb_eq in Ec. done.
Qed.

Lemma count_upto_prefix (c : ascii) (pre post : str) :
  Py.count_upto c (length pre) (pre ++ post) = count_occ ascii_dec pre c.
Proof.
  unfold Py.count_upto. rewrite take_app_length.
  induction pre as [|x pre IH]; [done|].
  rewrite filter_cons. simpl count_occ.
  destruct (ascii_dec x c) as [->|Hne].
  - rewrite decide_True by (by apply ascii_eqb_eq). simpl. by rewrite IH.
  - rewrite decide_False; [done|].
    intros H. apply ascii_eqb_eq in H. congruence.
Qed.

Lemma count_upto_mono (c : ascii) (i j : nat) (s : str) :
  i ≤ j → Py.count_upto c i s ≤ Py.count_upto c j s.
Proof.
  intros Hij. unfold Py.count_upto.
  replace j with (i + (j - i)) by lia.
  rewrite <- take_take_drop.
  rewrite filter_app, length_app. lia.
Qed.

(** ** The scan of [finditer] *)

Section Scan.
Variable ic : bool.
Variable r : Re.regex.

(** Unfolding of one step of the scan at a non-empty text. *)
Lemma scan_cons (pos skip : nat) (c : ascii) (s : str) :
  Re.scan ic r pos skip (c :: s) =
  match skip with
  | S skip' => Re.scan ic r (S pos) skip' s
  | 0 =>
      match Re.match_at ic r pos (c :: s) with
      | Some res =>
          Re.mk_match r pos (c :: s) res ::
          Re.scan ic r (S pos) (pred (res.1 - pos)) s
      | None => Re.scan ic r (S pos) 0 s
      end
  end.
Proof. by destruct skip. Qed.

Lemma scan_nil (pos skip : nat) :
  Re.scan ic r pos skip [] =
  match skip with
  | S _ => []
  | 0 =>
      match Re.match_at ic r pos [] with
      | Some res => [Re.mk_match r pos [] res]
      | None => []
      end
  end.
Proof. destruct skip; [|done]. simpl. by destruct (Re.match_at _ _ _ _). Qed.

(** Every match is the match found at its own start offset. *)
Lemma scan_found (s : str) : ∀ pos skip m,
  m ∈ Re.scan ic r pos skip s →
  pos + skip ≤ Re.m_start m ∧
  ∃ res, Re.match_at ic r (Re.m_start m) (drop (Re.m_start m - pos) s) = Some res
         ∧ m = Re.mk_match r (Re.m_start m) (drop (Re.m_start m - pos) s) res.
Proof.
  induction s as [|c s IH]; intros pos skip m.
  - rewrite scan_nil. destruct skip; [|by intros ?%elem_of_nil].
    destruct (Re.match_at ic r pos []) as [res|] eqn:E;
      [|by intros ?%elem_of_nil].
    intros ->%list_elem_of_singleton. simpl.
    split; [lia|]. exists res. by rewrite Nat.sub_diag.
  - rewrite scan_cons. destruct skip as [|skip].
    + destruct (Re.match_at ic r pos (c :: s)) as [res|] eqn:E.
      * intros [->|Hm]%elem_of_cons.
        { simpl. split; [lia|]. exists res. by rewrite Nat.sub_diag. }
        apply IH in Hm as [Hle (res' & Hat & Hm)].
        split; [lia|]. exists res'.
        replace (Re.m_start m - pos) with (S (Re.m_start m - S pos)) by lia.
        done.
      * intros Hm. apply IH in Hm as [Hle (res' & Hat & Hm)].
        split; [lia|]. exists res'.
        replace (Re.m_start m - pos) with (S (Re.m_start m - S pos)) by lia.
        done.
    + intros Hm. apply IH in Hm as [Hle (res' & Hat & Hm)].
      split; [lia|]. exists res'.
      replace (Re.m_start m - pos) with (S (Re.m_start m - S pos)) by lia.
      done.
Qed.

(** Matches come out in strictly increasing order of start offset. *)
Lemma scan_sorted (s : str) : ∀ pos skip,
  StronglySorted lt (map Re.m_start (Re.scan ic r pos skip s)).
Proof.
  induction s as [|c s IH]; intros pos skip.
  - rewrite scan_nil. destruct skip; [|constructor].
    destruct (Re.match_at ic r pos []); simpl; repeat constructor.
  - rewrite scan_cons. destruct skip as [|skip]; [|apply IH].
    destruct (Re.match_at ic r pos (c :: s)) as [res|]; [|apply IH].
    simpl. constructor; [apply IH|].
    apply Forall_forall. intros k (m & -> & Hm)%list_elem_of_fmap.
    apply scan_found in Hm as [Hle _]. lia.
Qed.

(** Every match carries one entry per capturing group. *)
Lemma scan_groups (s : str) (pos skip : nat) (m : Re.Match) :
  m ∈ Re.scan ic r pos skip s → length (Re.m_groups m) = Re.ngroups r.
Proof.
  intros (_ & res & _ & ->)%scan_found. simpl.
  by rewrite length_map, length_seq.
Qed.

End Scan.

Lemma finditer_sorted (ic : bool) (r : Re.regex) (s : str) :
  StronglySorted lt (map Re.m_start (Re.finditer ic r s)).
Proof. apply scan_sorted. Qed.

(** A match reported by [finditer] at offset [k] is the match of the
    pattern against the text from [k] on. *)
Lemma finditer_found (ic : bool) (r : Re.regex) (s : str) (m : Re.Match) :
  m ∈ Re.finditer ic r s →
  ∃ res, Re.match_at ic r (Re.m_start m) (drop (Re.m_start m) s) = Some res
         ∧ m = Re.mk_match r (Re.m_start m) (drop (Re.m_start m) s) res.
Proof.
  intros (_ & res & Hat & Hm)%scan_found.
  rewrite Nat.sub_0_r in Hat, Hm. eauto.
Qed.

(** ** Risk findings *)

Lemma scan_risks_matches (content : str) :
  scan_risks content =
  map (λ h, finding content h.1 h.2) (risk_matches content).
Proof.
  unfold scan_risks, risk_matches, entry_risks.
  induction RISK_PATTERNS as [|entry l IH]; [done|].
  simpl. rewrite map_app, map_map, IH. done.
Qed.

Lemma finding_line (content : str) (entry : string * Re.regex * string * string)
    (m : Re.Match) :
  line (finding content entry m) =
  Py.count_upto newline (Re.m_start m) content + 1.
Proof. by destruct entry as [[[? ?] ?] ?]. Qed.

Lemma StronglySorted_map_mono {A B} (R : relation A) (R' : relation B)
    (f : A → B) (l : list A) :
  (∀ x y, R x y → R' (f x) (f y)) →
  StronglySorted R l → StronglySorted R' (map f l).
Proof.
  intros Hf. induction 1 as [|x l Hl IH Hx]; simpl; constructor; [done|].
  apply Forall_forall. intros y (z & -> & Hz)%list_elem_of_fmap.
  apply Hf. by eapply Forall_forall in Hx.
Qed.

(** C4. For every content string containing a risk-pattern match whose first
    character is at offset [k], with [nl] newline characters in the content
    before offset [k], the finding reported for that match is in the risks
    of the content and has line [nl + 1]. *)
Theorem risk_line_counts_newlines
    (content pre post : str) (entry : string * Re.regex * string * string)
    (m : Re.Match) (k nl : nat) :
  entry ∈ RISK_PATTERNS →
  m ∈ Re.finditer true entry.1.1.2 content →
  Re.m_start m = k →
  content = pre ++ post →
  length pre = k →
  count_occ ascii_dec pre newline = nl →
  finding content entry m ∈ scan_risks content
  ∧ line (finding content entry m) = nl + 1.
Proof.
  intros Hentry Hm Hk -> Hpre Hnl. split.
  - apply list_elem_of_In, in_flat_map. exists entry.
    split; [by apply list_elem_of_In|].
    apply list_elem_of_In, list_elem_of_fmap. eauto.
  - rewrite finding_line, Hk, <- Hpre, count_upto_prefix, Hnl. done.
Qed.

Lemma risk_line_counts_newlines_witness :
  {| risk_type := "🛑 Hardcoded Password"; line := 2; severity := "High";
     risk_fix := "Move to environment variables." |}
  ∈ scan_risks sample_password.
Proof.
  refine (proj1 (risk_line_counts_newlines sample_password
            (("x = 1" : str) ++ [newline]) ("password = 'hunter2'" : str)
            password_entry sample_password_match 6 1 _ _ _ _ _ _)).
  - unfold password_entry, RISK_PATTERNS. left.
  - by_compute.
  - reflexivity.
  - reflexivity.
  - reflexivity.
  - reflexivity.
Defined.

(** C2, as stated, fails: a debug print on line 1 followed by a password
    assignment on line 2 is reported password first, so the risks are not in
    the order of the offsets of their matches. *)
Lemma risks_not_in_offset_order :
  map line (scan_risks sample_two_risks) = [2; 1]
  ∧ map (λ h, Re.m_start h.2) (risk_matches sample_two_risks) = [9; 0]
  ∧ ¬ StronglySorted le
        (map (λ h, Re.m_start h.2) (risk_matches sample_two_risks)).
Proof.
  split; [by vm_compute|]. split; [by vm_compute|].
  intros H. vm_compute in H.
  apply StronglySorted_inv in H as [_ H].
  apply Forall_cons in H as [H _]. lia.
Qed.

(** C2, amended. The risks of a content are the findings of the catalogue
    entries one entry after the other, in catalogue order; within one entry
    the findings follow the matches in strictly increasing order of start
    offset, hence in non-decreasing order of line. *)
Theorem risks_by_entry_then_offset (content : str) :
  scan_risks content = concat (map (entry_risks content) RISK_PATTERNS)
  ∧ Forall (λ entry,
        entry_risks content entry =
          map (finding content entry) (Re.finditer true entry.1.1.2 content)
        ∧ StronglySorted lt
            (map Re.m_start (Re.finditer true entry.1.1.2 content))
        ∧ StronglySorted le (map line (entry_risks content entry)))
      RISK_PATTERNS.
Proof.
  split; [apply flat_map_concat_map|].
  apply Forall_forall. intros entry _.
  split; [done|]. split; [apply finditer_sorted|].
  unfold entry_risks. rewrite map_map.
  replace (map _ (Re.finditer true entry.1.1.2 content))
    with (map (λ k, Py.count_upto newline k content + 1)
              (map Re.m_start (Re.finditer true entry.1.1.2 content))).
  2: { rewrite map_map. apply map_ext. intros m. symmetry.
       apply finding_line. }
  eapply StronglySorted_map_mono; [|apply (finditer_sorted true)].
  intros i j Hij. simpl.
  pose proof (count_upto_mono newline i j content). lia.
Qed.

(** ** Purpose and objectives *)

Example purpose_smoke :
  get_file_purpose "Test-Package.JSON" "" = "📦 Node.js Dependencies"
  ∧ get_file_purpose "login_spec.rb" "" = "🧪 Test Script"
  ∧ get_file_purpose "main.go" "" = "📝 Source File".
Proof. vm_compute. done. Qed.

(** C8. The purpose of a file is the tag of the first rule of the ordered
    rule table whose substring occurs in the lowercased filename, the
    generic tag when no rule applies; and a filename that contains the
    substring of a dependency-manifest rule gets a manifest tag whatever
    else it contains, the word test included. *)
Theorem purpose_is_first_matching_rule (filename content : str) :
  get_file_purpose filename content =
    first_rule PURPOSE_RULES (Py.lower filename)
  ∧ (is_manifest_name filename = true →
     get_file_purpose filename content ∈ map snd MANIFEST_RULES).
Proof.
  unfold get_file_purpose, is_manifest_name, MANIFEST_RULES, PURPOSE_RULES.
  cbn [first_rule take existsb map fst snd].
  generalize (Py.lower filename). intros name. split.
  - cascade name; reflexivity.
  - intros Hm.
    destruct (Py.contains "package.json" name); [set_solver|].
    destruct (Py.contains "pom.xml" name); [set_solver|].
    destruct (Py.contains "build.gradle" name); [set_solver|].
    destruct (Py.contains "requirements.txt" name); [set_solver|].
    discriminate Hm.
Qed.

Lemma purpose_is_first_matching_rule_witness :
  get_file_purpose "test_package.json" "" ∈ map snd MANIFEST_RULES.
Proof.
  apply (proj2 (purpose_is_first_matching_rule "test_package.json" "")).
  reflexivity.
Defined.

(** C9. A file whose lowercased name contains test or spec has exactly one
    objective: the Java/TestNG tag when the content contains the annotation
    marker, else the JS/Playwright tag when it contains the test-declaration
    call, else the automated-script tag.  Any other file has none. *)
Theorem objectives_of_test_files (f content : str) :
  (Py.contains "test" (Py.lower f) = true
   ∨ Py.contains "spec" (Py.lower f) = true →
   length (objectives (file_record f content)) = 1
   ∧ objectives (file_record f content) =
       [ if Py.contains "@Test" content then "Java/TestNG Test"
         else if Py.contains "test(" content then "JS/Playwright Test"
         else "Automated Script" ])
  ∧ (Py.contains "test" (Py.lower f) = false
     ∧ Py.contains "spec" (Py.lower f) = false →
     objectives (file_record f content) = []).
Proof.
  unfold file_record, scan_objectives, is_test_name. cbn [objectives]. split.
  - intros Hname.
    assert (Py.contains "test" (Py.lower f) || Py.contains "spec" (Py.lower f)
            = true) as -> by (apply orb_true_iff; exact Hname).
    destruct (Py.contains "@Test" content); [done|].
    destruct (Py.contains "test(" content); done.
  - intros [-> ->]. done.
Qed.

Lemma objectives_of_test_files_witness :
  objectives (file_record "LoginTest.java" "@Test void t() {}")
    = ["Java/TestNG Test"]
  ∧ objectives (file_record "login.spec.ts" "test('x', f)")
    = ["JS/Playwright Test"]
  ∧ objectives (file_record "util.py" "@Test test(") = [].
Proof.
  split; [|split].
  - apply (proj1 (objectives_of_test_files "LoginTest.java" "@Test void t() {}")).
    left. reflexivity.
  - apply (proj1 (objectives_of_test_files "login.spec.ts" "test('x', f)")).
    right. reflexivity.
  - apply (proj2 (objectives_of_test_files "util.py" "@Test test(")).
    split; reflexivity.
Defined.

(** ** Import extraction *)

Lemma text_extensions_dotted :
  Forall (λ ext : str, "."%char ∈ ext) TEXT_EXTENSIONS.
Proof. by_compute. Qed.

(** A name admitted through its extension contains a dot, so an admitted
    name without one is one of the two conventional names. *)
Lemma eligible_without_dot (f : str) :
  eligible f = true → "."%char ∉ f →
  f = ("Dockerfile" : str) ∨ f = ("Jenkinsfile" : str).
Proof.
  unfold eligible, Py.endswith_any, Py.mem.
  intros [Hext|Hname]%orb_true_iff Hdot.
  - exfalso. apply existsb_exists in Hext as (ext & Hin & Hends).
    apply endswith_suffix in Hends as [t ->].
    apply list_elem_of_In in Hin.
    pose proof text_extensions_dotted as Hall.
    eapply Forall_forall in Hall; [|exact Hin].
    apply Hdot, elem_of_app. by right.
  - apply bool_decide_eq_true in Hname.
    apply elem_of_cons in Hname as [->|Hname]; [by left|].
    apply list_elem_of_singleton in Hname as ->. by right.
Qed.

(** C10. An eligible file whose name contains no dot has no raw imports:
    the lookup key is the whole filename and the pattern table has no such
    key. *)
Theorem dotless_file_has_no_imports (f content : str) :
  eligible f = true →
  "."%char ∉ f →
  import_key f = f
  ∧ import_pattern IMPORT_PATTERNS (import_key f) = None
  ∧ raw_imports (file_record f content) = [].
Proof.
  intros Hadm Hdot.
  assert (import_key f = f) as Hkey.
  { unfold import_key. cbn [drop]. by apply split_last_without_sep. }
  assert (import_pattern IMPORT_PATTERNS f = None) as Hnone.
  { destruct (eligible_without_dot f Hadm Hdot) as [-> | ->]; by vm_compute. }
  split; [done|]. rewrite Hkey. split; [done|].
  cbn [raw_imports file_record]. unfold scan_imports.
  by rewrite Hkey, Hnone.
Qed.

Lemma dotless_file_has_no_imports_witness :
  raw_imports (file_record "Dockerfile" "import os") = [].
Proof.
  apply (dotless_file_has_no_imports "Dockerfile" "import os").
  - reflexivity.
  - by_compute.
Defined.

(** On the two-group pattern of the [ts] and [js] keys, [findall] returns a
    tuple per match and the token is its first non-empty group. *)
Lemma import_token_two_groups (m : Re.Match) :
  length (Re.m_groups m) = 2 →
  import_token (Re.findall_of m) = first_group_token m.
Proof.
  unfold import_token, first_group_token, first_truthy, Re.findall_of.
  destruct (Re.m_groups m) as [|g1 [|g2 [|g3 gs]]]; try discriminate.
  intros _.
  destruct (head _) as [imp|] eqn:E; [|done].
  apply head_Some_elem_of, list_elem_of_filter in E as [Hne _].
  by rewrite bool_decide_eq_true_2.
Qed.

Lemma es_imports_first_group (f content : str) :
  import_key f = ("ts" : str) ∨ import_key f = ("js" : str) →
  scan_imports f content = group_tokens es_import content.
Proof.
  intros Hkey. unfold scan_imports, group_tokens, Re.findall.
  assert (import_pattern IMPORT_PATTERNS (import_key f) = Some es_import) as ->
    by (destruct Hkey as [-> | ->]; by vm_compute).
  assert (Forall (λ m, length (Re.m_groups m) = 2)
                 (Re.finditer false es_import content)) as Hall.
  { apply Forall_forall. intros m Hm. by apply scan_groups in Hm. }
  induction Hall as [|m ms Hm _ IH]; [done|].
  simpl. by rewrite import_token_two_groups, IH.
Qed.

(** On the one-group patterns of the [py], [java] and [groovy] keys,
    [findall] returns a string per match and the token is one character. *)
Lemma import_token_one_group (m : Re.Match) :
  length (Re.m_groups m) = 1 →
  Forall (λ tok : str, length tok = 1) (import_token (Re.findall_of m)).
Proof.
  unfold import_token, first_truthy, Re.findall_of.
  destruct (Re.m_groups m) as [|g [|g2 gs]]; try discriminate.
  intros _. destruct (default [] g) as [|c s]; [constructor|].
  cbn [map]. rewrite filter_cons, decide_True by done. simpl.
  by repeat constructor.
Qed.

Lemma one_group_imports_one_char (f content : str) :
  import_key f ∈ [("py" : str); ("java" : str); ("groovy" : str)] →
  Forall (λ tok : str, length tok = 1) (scan_imports f content).
Proof.
  intros Hkey. unfold scan_imports, Re.findall.
  assert (∃ pat, import_pattern IMPORT_PATTERNS (import_key f) = Some pat
                 ∧ Re.ngroups pat = 1) as (pat & -> & Hone).
  { repeat (apply elem_of_cons in Hkey as [-> | Hkey];
            [eexists; split; by vm_compute|]).
    by apply elem_of_nil in Hkey. }
  assert (Forall (λ m, length (Re.m_groups m) = 1)
                 (Re.finditer false pat content)) as Hall.
  { apply Forall_forall. intros m Hm. apply scan_groups in Hm. congruence. }
  induction Hall as [|m ms Hm _ IH]; [constructor|].
  simpl. apply Forall_app. split; [by apply import_token_one_group|done].
Qed.

(** Hence a Python, Java or Groovy file contributes no edge to the graph. *)
Lemma one_group_files_make_no_edges (src f content : str) :
  import_key f ∈ [("py" : str); ("java" : str); ("groovy" : str)] →
  file_edges (src, file_record f content) = [].
Proof.
  intros Hkey%(one_group_imports_one_char f content).
  unfold file_edges. cbn [fst snd raw_imports file_record].
  induction Hkey as [|tok toks Htok _ IH]; [done|].
  cbn [flat_map]. rewrite IH, app_nil_r. unfold makes_edge.
  destruct tok as [|c [|c' tok]]; try discriminate.
  cbn [Py.split_last existsb]. by destruct (Py.ascii_eqb "/" c).
Qed.

(** C1 at a Python file. The file [a.py] is admitted and its key [py] is in
    the pattern table; the one match of the pattern in [import os] captures
    [os] in its only group, yet the token stored for it is [o].  With one
    group in the pattern [findall] returns the captured string itself, and
    the selection of the first non-empty element then runs over its
    characters. *)
Theorem python_import_token_is_one_character :
  eligible "a.py" = true
  ∧ import_pattern IMPORT_PATTERNS (import_key "a.py") = Some py_import
  ∧ map Re.m_groups (Re.finditer false py_import "import os")
      = [[Some ("os" : str)]]
  ∧ group_tokens py_import "import os" = [("os" : str)]
  ∧ raw_imports (file_record "a.py" "import os") = [("o" : str)].
Proof. repeat split; by vm_compute. Qed.

(** ** The graph builder *)

Lemma add_import_cases (src : str) (acc : list GraphEdge * used_by_t)
    (imp : str) :
  add_import src acc imp =
  if makes_edge imp then
    (acc.1 ++ [{| source := basename src;
                  target := Py.split_last "/"%char imp |}],
     <[Py.split_last "/"%char imp :=
         default ∅ (acc.2 !! Py.split_last "/"%char imp) ∪ {[src]}]> acc.2)
  else acc.
Proof.
  unfold add_import, makes_edge.
  destruct (Py.split_last "/"%char imp) as [|c tgt] eqn:E; [done|].
  by rewrite bool_decide_eq_true_2.
Qed.

Lemma add_file_edges (item : str * FileRecord)
    (acc : list GraphEdge * used_by_t) :
  (add_file acc item).1 = acc.1 ++ file_edges item.
Proof.
  unfold add_file, file_edges.
  revert acc. induction (raw_imports item.2) as [|imp imps IH]; intros acc.
  - simpl. by rewrite app_nil_r.
  - simpl. rewrite IH, add_import_cases.
    destruct (makes_edge imp); simpl; by rewrite <- ?app_assoc.
Qed.

Lemma build_graph_edges (files_data : files_data_t) :
  (build_graph files_data).1 = flat_map file_edges files_data.
Proof.
  unfold build_graph.
  enough (∀ acc, (fold_left add_file files_data acc).1
                 = acc.1 ++ flat_map file_edges files_data) as H by apply H.
  induction files_data as [|item l IH]; intros acc; simpl.
  - by rewrite app_nil_r.
  - by rewrite IH, add_file_edges, <- app_assoc.
Qed.

Lemma add_import_long (src imp : str) (acc : list GraphEdge * used_by_t) :
  long_targets acc → long_targets (add_import src acc imp).
Proof.
  intros [Hedges Hkeys]. rewrite add_import_cases.
  destruct (makes_edge imp) eqn:E; [|done].
  apply Nat.ltb_lt in E. split; simpl.
  - apply Forall_app. split; [done|]. by repeat constructor.
  - intros tgt. destruct (decide (Py.split_last "/"%char imp = tgt)) as [<-|Hne].
    + done.
    + rewrite lookup_insert_ne by done. apply Hkeys.
Qed.

Lemma build_graph_long (files_data : files_data_t) :
  long_targets (build_graph files_data).
Proof.
  unfold build_graph.
  enough (∀ acc, long_targets acc →
                 long_targets (fold_left add_file files_data acc)) as H.
  { apply H. split; [constructor|]. intros tgt [x Hx]. simpl in Hx.
    by rewrite lookup_empty in Hx. }
  induction files_data as [|item l IH]; intros acc Hacc; [done|].
  simpl. apply IH. unfold add_file.
  revert acc Hacc. induction (raw_imports item.2) as [|imp imps IHi];
    intros acc Hacc; [done|].
  simpl. by apply IHi, add_import_long.
Qed.

(** C5. A raw import token whose final path segment has at most one
    character changes neither the edge list nor the reverse index when it
    is processed, and the graph built from any collection has no edge to
    that segment and no reverse-index entry for it. *)
Theorem short_token_left_out (files_data : files_data_t) (src imp : str)
    (acc : list GraphEdge * used_by_t) :
  length (Py.split_last "/"%char imp) ≤ 1 →
  add_import src acc imp = acc
  ∧ Forall (λ e, target e ≠ Py.split_last "/"%char imp)
           (build_graph files_data).1
  ∧ (build_graph files_data).2 !! Py.split_last "/"%char imp = None.
Proof.
  intros Hshort. destruct (build_graph_long files_data) as [Hedges Hkeys].
  split; [|split].
  - rewrite add_import_cases. unfold makes_edge.
    by rewrite (proj2 (Nat.ltb_ge _ _)).
  - eapply Forall_impl; [exact Hedges|]. intros e He Heq.
    simpl in He. rewrite Heq in He. lia.
  - apply eq_None_not_Some. intros Hsome. apply Hkeys in Hsome. lia.
Qed.

Lemma short_token_left_out_witness :
  Forall (λ e, target e ≠ ("x" : str)) (build_graph sample_files_data).1
  ∧ (build_graph sample_files_data).2 !! ("x" : str) = None.
Proof.
  refine (proj2 (short_token_left_out sample_files_data "src/login.js" "./x"
                   ([], ∅) _)).
  vm_compute. lia.
Defined.

(** C6. The number of edges is the number of raw import entries, over all
    records of the collection, whose final path segment is longer than one
    character; equal entries count once each. *)
Theorem edge_count (files_data : files_data_t) :
  length (build_graph files_data).1 =
  length (filter (λ imp, 1 < length (Py.split_last "/"%char imp))
                 (concat (map (λ item : str * FileRecord, raw_imports item.2)
                              files_data))).
Proof.
  rewrite build_graph_edges.
  induction files_data as [|item l IH]; [done|].
  simpl. rewrite length_app, filter_app, length_app, IH. f_equal.
  unfold file_edges.
  induction (raw_imports item.2) as [|imp imps IHi]; [done|].
  simpl. rewrite length_app, IHi, filter_cons. unfold makes_edge.
  destruct (Nat.ltb_spec 1 (length (Py.split_last "/"%char imp))).
  - by rewrite decide_True.
  - by rewrite decide_False by lia.
Qed.

Example edge_count_sample :
  map target (build_graph sample_files_data).1
  = [("auth" : str); ("auth" : str)].
Proof. by vm_compute. Qed.

(** ** The walk *)

Lemma os_walk_dir (keep : str → bool) (top : list str) (d : str)
    (entries : list node) :
  os_walk keep top (Dir d (Some entries)) =
  {| w_top := top;
     w_dirs := filter (λ d, keep d = true) (dir_names entries);
     w_files := file_entries entries |}
  :: flat_map (walk_child keep top) entries.
Proof.
  reflexivity.
Qed.

(** Every yielded triple belongs to a directory of the tree that is reached
    through kept names only, and lists the files of that directory. *)
Lemma os_walk_sound (keep : str → bool) (n : node) : ∀ top step,
  step ∈ os_walk keep top n →
  ∃ chain entries,
    w_top step = top ++ chain
    ∧ Forall (λ d, keep d = true) chain
    ∧ dir_at n chain entries
    ∧ w_files step = file_entries entries.
Proof.
  induction n as [f c|d|d entries IH] using node_induction; intros top step.
  - by intros ?%elem_of_nil.
  - by intros ?%elem_of_nil.
  - rewrite os_walk_dir. intros [->|Hstep]%elem_of_cons.
    + exists [], entries. simpl. rewrite app_nil_r.
      split; [done|]. split; [constructor|]. split; [constructor|done].
    + apply list_elem_of_In, in_flat_map in Hstep as (c & Hc & Hstep).
      apply list_elem_of_In in Hc, Hstep.
      eapply Forall_forall in IH; [|exact Hc].
      destruct c as [f c|sub listing]; [by apply elem_of_nil in Hstep|].
      simpl in Hstep. destruct (keep sub) eqn:Hkeep;
        [|by apply elem_of_nil in Hstep].
      apply IH in Hstep as (chain & es & Htop & Hall & Hat & Hfiles).
      exists (sub :: chain), es. rewrite Htop, <- app_assoc.
      repeat split; try done.
      * by constructor.
      * by econstructor.
Qed.

Lemma not_ignored_spec (d : str) : not_ignored d = true ↔ d ∉ IGNORED.
Proof.
  unfold not_ignored, Py.mem.
  rewrite negb_true_iff, bool_decide_eq_false. done.
Qed.

(** ** The records of a scan *)

Lemma dict_set_elem {V} (d : list (str * V)) (k : str) (v : V)
    (x : str * V) :
  x ∈ Py.dict_set d k v → x ∈ d ∨ x = (k, v).
Proof.
  induction d as [|[k' v'] d IH]; simpl.
  - intros ->%list_elem_of_singleton. by right.
  - case_bool_decide.
    + intros [->|Hx]%elem_of_cons; [by right|]. left. by right.
    + intros [->|Hx]%elem_of_cons; [left; by left|].
      destruct (IH Hx) as [?|?]; [left; by right|by right].
Qed.

Lemma visit_dir_records (step : walk_step) (files_data : files_data_t)
    (item : str * FileRecord) :
  item ∈ visit_dir files_data step →
  item ∈ files_data ∨ from_step step item.
Proof.
  unfold visit_dir, from_step.
  enough (∀ files fd, item ∈ fold_left (visit_file (w_top step)) files fd →
            item ∈ fd ∨ ∃ f content, (f, Some content) ∈ files
              ∧ eligible f = true
              ∧ item = (rel_path (w_top step) f, file_record f content))
    as H by apply H.
  induction files as [|[f opened] files IH]; intros fd; simpl; [by left|].
  intros [Hfd|(f' & content & Hin & Hadm & Hitem)]%IH.
  - destruct (eligible f) eqn:Hadm; [|by left].
    destruct opened as [content|]; [|by left].
    apply dict_set_elem in Hfd as [?| ->]; [by left|].
    right. exists f, content. split; [by left|done].
  - right. exists f', content. split; [by right|done].
Qed.

Lemma scan_files_records (root : option node) (item : str * FileRecord) :
  item ∈ scan_files root →
  ∃ step, step ∈ walk_project root ∧ from_step step item.
Proof.
  unfold scan_files.
  enough (∀ steps fd, item ∈ fold_left visit_dir steps fd →
            item ∈ fd ∨ ∃ step, step ∈ steps ∧ from_step step item) as H.
  { intros [Hnil|?]%H; [by apply elem_of_nil in Hnil|done]. }
  induction steps as [|step steps IH]; intros fd; simpl; [by left|].
  intros [Hfd|(step' & Hin & Hfrom)]%IH.
  - apply visit_dir_records in Hfd as [?|?]; [by left|].
    right. exists step. split; [by left|done].
  - right. exists step'. split; [by right|done].
Qed.

(** C7. The walk yields no directory whose chain of names from the root
    contains an ignored name, and every record of the scan is the record of
    a readable eligible file listed in a directory of the tree that is
    reached from the root through names outside the ignore set. *)
Theorem ignored_directories_not_scanned (root : node) :
  Forall (λ step, Forall (λ d, d ∉ IGNORED) (w_top step))
         (walk_project (Some root))
  ∧ Forall (λ item : str * FileRecord,
        ∃ chain entries f content,
          dir_at root chain entries
          ∧ Forall (λ d, d ∉ IGNORED) chain
          ∧ File f (Some content) ∈ entries
          ∧ eligible f = true
          ∧ item = (rel_path chain f, file_record f content))
      (scan_files (Some root)).
Proof.
  assert (∀ step, step ∈ walk_project (Some root) →
            ∃ entries, dir_at root (w_top step) entries
              ∧ Forall (λ d, d ∉ IGNORED) (w_top step)
              ∧ w_files step = file_entries entries) as Hwalk.
  { intros step (chain & entries & Htop & Hall & Hat & Hfiles)%os_walk_sound.
    simpl in Htop. rewrite Htop. exists entries. repeat split; try done.
    eapply Forall_impl; [exact Hall|]. intros d. apply not_ignored_spec. }
  split; apply Forall_forall.
  - intros step (entries & _ & Hall & _)%Hwalk. done.
  - intros item (step & Hstep & f & content & Hin & Hadm & ->)%scan_files_records.
    apply Hwalk in Hstep as (entries & Hat & Hall & Hfiles).
    exists (w_top step), entries, f, content. repeat split; try done.
    rewrite Hfiles in Hin. unfold file_entries in Hin.
    apply list_elem_of_In, in_flat_map in Hin as (n & Hn & Hin).
    apply list_elem_of_In in Hin.
    destruct n as [f' c'|]; [|by apply elem_of_nil in Hin].
    apply list_elem_of_singleton in Hin.
    injection Hin as -> ->. by apply list_elem_of_In.
Qed.

Example scan_sample_tree :
  map fst (scan_files (Some sample_tree))
  = [("README.md" : str); ("src/login.js" : str)].
Proof. by vm_compute. Qed.

(** ** A root that cannot be scanned *)

Lemma scan_files_unavailable (root : option node) :
  root_unavailable root → scan_files root = [].
Proof. by intros [-> | [d ->]]. Qed.

(** C3, as stated, fails: for a root path that names nothing the call
    returns, and what it returns is the empty collection, the empty edge
    list and the empty reverse index. *)
Lemma missing_root_returns_empty :
  scan_project None = Returned ([], [], ∅)
  ∧ ¬ ∃ exn, scan_project None = Raised exn.
Proof.
  split; [done|]. intros [exn H]. discriminate H.
Qed.

(** C3, amended. If the root directory is missing or cannot be listed, the
    scan returns the empty record collection, the empty edge list and the
    empty reverse index, and raises nothing. *)
Theorem unavailable_root_scans_empty (root : option node) :
  root_unavailable root →
  scan_project root = Returned ([], [], ∅).
Proof.
  intros Hroot. unfold scan_project.
  by rewrite (scan_files_unavailable root Hroot).
Qed.

Lemma unavailable_root_scans_empty_witness :
  scan_project (Some (Dir "gone" None)) = Returned ([], [], ∅).
Proof.
  apply unavailable_root_scans_empty. right. by exists ("gone" : str).
Defined.


(** * Further properties *)

(** ** The matcher *)

(** Where a successful match hands over to its continuation: at an offset
    not before the start and not past the end of the text, on the rest of
    the text from there, and strictly later when the pattern cannot match
    the empty string; never at a later start when the pattern is anchored. *)
Lemma rmatch_inv (ic : bool) (r : Re.regex) :
  ∀ pos s caps (k : Re.cont) res,
    Re.rmatch ic r pos s caps k = Some res →
    ∃ pos' caps',
      pos ≤ pos' ∧ pos' ≤ pos + length s
      ∧ (nullable r = false → pos < pos')
      ∧ (anchored r = true → pos = 0)
      ∧ k pos' (drop (pos' - pos) s) caps' = Some res.
Proof.
  induction r as [c|neg items| | |r1 IH1 r2 IH2|r1 IH1 r2 IH2|r1 IH1|n r1 IH1];
    intros pos s caps k res; cbn [Re.rmatch nullable anchored].
  - destruct s as [|x s]; [done|]. destruct (Re.lit_matches ic c x); [|done].
    intros Hk. exists (S pos), caps.
    replace (S pos - pos) with 1 by lia. simpl. repeat split; try lia; done.
  - destruct s as [|x s]; [done|].
    destruct (Re.cset_matches ic neg items x); [|done].
    intros Hk. exists (S pos), caps.
    replace (S pos - pos) with 1 by lia. simpl. repeat split; try lia; done.
  - destruct (Nat.eqb_spec pos 0) as [->|]; [|done].
    intros Hk. exists 0, caps. simpl. repeat split; try lia; done.
  - intros Hk. exists pos, caps. rewrite Nat.sub_diag. simpl.
    repeat split; try lia; done.
  - intros (p1 & c1 & Hle1 & Hup1 & Hnull1 & Hanch1 & Hk1)%IH1.
    apply IH2 in Hk1 as (p2 & c2 & Hle2 & Hup2 & Hnull2 & Hanch2 & Hk2).
    rewrite length_drop in Hup2. rewrite drop_drop in Hk2.
    exists p2, c2. replace (p2 - pos) with (p1 - pos + (p2 - p1)) by lia.
    repeat split; try lia; try done.
    intros [H|H]%andb_false_iff; [specialize (Hnull1 H)|specialize (Hnull2 H)];
      lia.
  - destruct (Re.rmatch ic r1 pos s caps k) as [res1|] eqn:E1.
    + intros [= <-].
      apply IH1 in E1 as (p1 & c1 & Hle1 & Hup1 & Hnull1 & Hanch1 & Hk1).
      exists p1, c1. repeat split; try done.
      * intros [H _]%orb_false_iff. auto.
      * intros [H _]%andb_true_iff. auto.
    + intros (p2 & c2 & Hle2 & Hup2 & Hnull2 & Hanch2 & Hk2)%IH2.
      exists p2, c2. repeat split; try done.
      * intros [_ H]%orb_false_iff. auto.
      * intros [_ H]%andb_true_iff. auto.
  - match goal with
    | |- ?f (length s) pos s caps = Some res → _ => set (loop := f)
    end.
    enough (∀ fuel pos s caps, loop fuel pos s caps = Some res →
              ∃ pos' caps', pos ≤ pos' ∧ pos' ≤ pos + length s
                ∧ k pos' (drop (pos' - pos) s) caps' = Some res) as Hloop.
    { intros (p & c & ? & ? & ?)%Hloop. exists p, c.
      repeat split; try done. }
    clear pos s caps. intros fuel.
    induction fuel as [|fuel IHf]; intros pos s caps; simpl.
    + intros Hk. exists pos, caps. rewrite Nat.sub_diag. simpl.
      repeat split; try lia; done.
    + destruct (Re.rmatch ic r1 pos s caps _) as [res1|] eqn:E1.
      * intros [= <-].
        apply IH1 in E1 as (p1 & c1 & Hle1 & Hup1 & _ & _ & Hk1).
        destruct (Nat.ltb_spec pos p1); [|done].
        apply IHf in Hk1 as (p2 & c2 & Hle2 & Hup2 & Hk2).
        rewrite length_drop in Hup2. rewrite drop_drop in Hk2.
        exists p2, c2. replace (p2 - pos) with (p1 - pos + (p2 - p1)) by lia.
        repeat split; try lia; done.
      * intros Hk. exists pos, caps. rewrite Nat.sub_diag. simpl.
        repeat split; try lia; done.
  - intros (p1 & c1 & Hle1 & Hup1 & Hnull1 & Hanch1 & Hk1)%IH1.
    eexists p1, _. repeat split; try done.
Qed.

Lemma match_at_inv (ic : bool) (r : Re.regex) (pos : nat) (s : str)
    (res : nat * Re.captures) :
  Re.match_at ic r pos s = Some res →
  pos ≤ res.1 ∧ res.1 ≤ pos + length s
  ∧ (nullable r = false → pos < res.1)
  ∧ (anchored r = true → pos = 0).
Proof.
  unfold Re.match_at.
  intros (p & c & Hle & Hup & Hnull & Hanch & [= <-])%rmatch_inv.
  done.
Qed.

Section ScanBounds.
Variable ic : bool.
Variable r : Re.regex.

Lemma scan_start_le (s : str) : ∀ pos skip m,
  m ∈ Re.scan ic r pos skip s → Re.m_start m ≤ pos + length s.
Proof.
  induction s as [|c s IH]; intros pos skip m.
  - rewrite scan_nil. destruct skip; [|by intros ?%elem_of_nil].
    destruct (Re.match_at ic r pos []); [|by intros ?%elem_of_nil].
    intros ->%list_elem_of_singleton. simpl. lia.
  - rewrite scan_cons. destruct skip as [|skip].
    + destruct (Re.match_at ic r pos (c :: s)) as [res|].
      * intros [->|Hm%IH]%elem_of_cons; simpl in *; lia.
      * intros Hm%IH. simpl. lia.
    + intros Hm%IH. simpl. lia.
Qed.

(** A match lies inside the text and its text is the slice between its
    offsets. *)
Lemma scan_span (s : str) (pos skip : nat) (m : Re.Match) :
  m ∈ Re.scan ic r pos skip s →
  Re.m_start m ≤ Re.m_end m ∧ Re.m_end m ≤ pos + length s
  ∧ (nullable r = false → Re.m_start m < Re.m_end m)
  ∧ (anchored r = true → Re.m_start m = 0)
  ∧ Re.m_text m =
      take (Re.m_end m - Re.m_start m) (drop (Re.m_start m - pos) s).
Proof.
  intros Hm. pose proof (scan_start_le _ _ _ _ Hm) as Hle.
  apply scan_found in Hm as (Hge & res & Hat & Hm).
  apply match_at_inv in Hat as (H1 & H2 & H3 & H4).
  rewrite length_drop in H2.
  rewrite Hm. simpl. rewrite Hm in Hle, Hge. simpl in Hle, Hge.
  repeat split; try done. lia.
Qed.

(** Matches do not overlap: each ends before the next one starts. *)
Lemma scan_disjoint (s : str) : ∀ pos skip,
  StronglySorted (λ m1 m2, Re.m_end m1 ≤ Re.m_start m2)
                 (Re.scan ic r pos skip s).
Proof.
  induction s as [|c s IH]; intros pos skip.
  - rewrite scan_nil. destruct skip; [|constructor].
    destruct (Re.match_at ic r pos []); repeat constructor.
  - rewrite scan_cons. destruct skip as [|skip]; [|apply IH].
    destruct (Re.match_at ic r pos (c :: s)) as [res|]; [|apply IH].
    constructor; [apply IH|].
    apply Forall_forall. intros m [Hge _]%scan_found. simpl. lia.
Qed.

End ScanBounds.

Lemma sorted_below_length (l : list nat) (a n : nat) :
  StronglySorted lt l → Forall (λ x, a ≤ x ∧ x < n) l → length l ≤ n - a.
Proof.
  intros Hs. revert a. induction Hs as [|x l Hl IH Hx]; intros a Hb.
  - simpl. lia.
  - apply Forall_cons in Hb as [[Hax Hxn] Hb]. simpl.
    specialize (IH (S x)).
    assert (Forall (λ y, S x ≤ y ∧ y < n) l) as Hb'.
    { apply Forall_forall. intros y Hy.
      pose proof (proj1 (Forall_forall _ _) Hx y Hy).
      pose proof (proj1 (Forall_forall _ _) Hb y Hy). simpl in *. lia. }
    apply IH in Hb'. lia.
Qed.

Lemma source_patterns_consume : Forall (λ r, nullable r = false) SOURCE_PATTERNS.
Proof. repeat constructor. Qed.

(** A pattern that cannot match the empty string has at most as many
    matches as the text has characters. *)
Lemma finditer_count (ic : bool) (r : Re.regex) (s : str) :
  nullable r = false → length (Re.finditer ic r s) ≤ length s.
Proof.
  intros Hnull.
  pose proof (sorted_below_length (map Re.m_start (Re.finditer ic r s))
                0 (length s) (finditer_sorted ic r s)) as H.
  rewrite length_map, Nat.sub_0_r in H. apply H.
  apply Forall_forall. intros k (m & -> & Hm)%list_elem_of_fmap.
  apply scan_span in Hm as (H1 & H2 & H3 & _). specialize (H3 Hnull).
  simpl in H2. lia.
Qed.

Lemma finditer_anchored (ic : bool) (r : Re.regex) (s : str) :
  anchored r = true → length (Re.finditer ic r s) ≤ 1.
Proof.
  intros Hanch.
  pose proof (sorted_below_length (map Re.m_start (Re.finditer ic r s))
                0 1 (finditer_sorted ic r s)) as H.
  rewrite length_map in H. apply H.
  apply Forall_forall. intros k (m & -> & Hm)%list_elem_of_fmap.
  apply scan_span in Hm as (_ & _ & _ & H0 & _). rewrite (H0 Hanch). lia.
Qed.

(** X1. For each pattern the scanner uses, with or without [re.IGNORECASE],
    every reported match is non-empty, lies inside the content, carries as
    its text the slice of the content between its offsets, and ends before
    the next match starts. *)
Theorem source_matches_disjoint (ic : bool) (content : str) :
  Forall (λ pat,
      Forall (λ m,
          Re.m_start m < Re.m_end m
          ∧ Re.m_end m ≤ length content
          ∧ Re.m_text m =
              take (Re.m_end m - Re.m_start m) (drop (Re.m_start m) content))
        (Re.finditer ic pat content)
      ∧ StronglySorted (λ m1 m2, Re.m_end m1 ≤ Re.m_start m2)
          (Re.finditer ic pat content))
    SOURCE_PATTERNS.
Proof.
  eapply Forall_impl; [apply source_patterns_consume|].
  intros pat Hnull. split; [|apply scan_disjoint].
  apply Forall_forall. intros m (H1 & H2 & H3 & _ & H5)%scan_span.
  rewrite Nat.sub_0_r in H5. simpl in H2. auto.
Qed.

(** ** More on risk findings *)

Lemma count_upto_total (c : ascii) (k : nat) (s : str) :
  Py.count_upto c k s ≤ count_occ ascii_dec s c.
Proof.
  destruct (Nat.le_gt_cases k (length s)) as [Hk|Hk].
  - rewrite <- (count_upto_prefix c s []), app_nil_r.
    by apply count_upto_mono.
  - rewrite <- (count_upto_prefix c s []), app_nil_r.
    unfold Py.count_upto. rewrite !take_ge by lia. done.
Qed.

(** X2. Every finding of a content has a line number between 1 and the
    number of lines of the content (its newline count plus one), and its
    type, severity and fix are those of one entry of the risk catalogue. *)
Theorem risk_findings_well_formed (content : str) :
  Forall (λ rf,
      1 ≤ line rf
      ∧ line rf ≤ count_occ ascii_dec content newline + 1
      ∧ (risk_type rf, severity rf, risk_fix rf)
          ∈ map (λ entry : string * Re.regex * string * string,
                   (entry.1.1.1, entry.1.2, entry.2)) RISK_PATTERNS)
    (scan_risks content).
Proof.
  apply Forall_forall. intros rf Hrf.
  apply list_elem_of_In, in_flat_map in Hrf as (entry & Hentry & Hrf).
  apply list_elem_of_In, list_elem_of_fmap in Hrf as (m & -> & Hm).
  rewrite finding_line.
  pose proof (count_upto_total newline (Re.m_start m) content).
  split; [lia|]. split; [lia|].
  apply list_elem_of_fmap. exists entry.
  split; [|by apply list_elem_of_In].
  by destruct entry as [[[? ?] ?] ?].
Qed.

Lemma import_pattern_in (table : list (str * Re.regex)) (key : str)
    (pat : Re.regex) :
  import_pattern table key = Some pat → pat ∈ map snd table.
Proof.
  induction table as [|[k p] table IH]; [done|]. simpl.
  case_bool_decide; [intros [= ->]; by left|].
  intros Hpat. right. by apply IH.
Qed.

Lemma import_token_length (m : Re.findall_item) :
  length (import_token m) ≤ 1.
Proof.
  unfold import_token. destruct (first_truthy m); [|simpl; lia].
  case_bool_decide; simpl; lia.
Qed.

Lemma scan_imports_count (f content : str) :
  ∃ pat, length (scan_imports f content)
         ≤ length (Re.finditer false pat content)
         ∧ pat ∈ SOURCE_PATTERNS
         ∧ (import_key f ∈ [("py" : str); ("java" : str); ("groovy" : str)] →
            anchored pat = true).
Proof.
  unfold scan_imports.
  destruct (import_pattern IMPORT_PATTERNS (import_key f)) as [pat|] eqn:E.
  - exists pat. split; [|split].
    + unfold Re.findall.
      induction (Re.finditer false pat content) as [|m ms IH]; [done|].
      simpl. rewrite length_app.
      pose proof (import_token_length (Re.findall_of m)). lia.
    + apply elem_of_app. left. by eapply import_pattern_in.
    + intros Hkey.
      repeat (apply elem_of_cons in Hkey as [Hkey | Hkey];
              [rewrite Hkey in E; vm_compute in E; by injection E as <-|]).
      by apply elem_of_nil in Hkey.
  - exists py_import. split; [simpl; lia|]. split; [|done].
    apply elem_of_app. left. unfold IMPORT_PATTERNS. simpl.
    right. right. left.
Qed.

(** X3. A record never holds more findings than four times the number of
    characters of the content, nor more raw imports than characters; a file
    with empty content has neither findings nor imports. *)
Theorem findings_bounded_by_length (f content : str) :
  length (risks (file_record f content)) ≤ 4 * length content
  ∧ length (raw_imports (file_record f content)) ≤ length content
  ∧ (content = [] →
     risks (file_record f content) = []
     ∧ raw_imports (file_record f content) = []).
Proof.
  assert (length (scan_risks content) ≤ 4 * length content) as Hrisks.
  { unfold scan_risks, RISK_PATTERNS. cbn [flat_map].
    rewrite !length_app. unfold entry_risks. rewrite !length_map.
    cbn [fst snd length].
    pose proof (finditer_count true password_pat content eq_refl).
    pose proof (finditer_count true secret_pat content eq_refl).
    pose proof (finditer_count true sleep_pat content eq_refl).
    pose proof (finditer_count true log_pat content eq_refl).
    lia. }
  assert (length (scan_imports f content) ≤ length content) as Himports.
  { destruct (scan_imports_count f content) as (pat & Hle & Hpat & _).
    pose proof source_patterns_consume as Hall.
    eapply Forall_forall in Hall; [|exact Hpat].
    pose proof (finditer_count false pat content Hall). lia. }
  cbn [risks raw_imports file_record].
  split; [done|]. split; [done|].
  intros Hempty. assert (length content = 0) as Hlen by (by rewrite Hempty).
  split; apply length_zero_iff_nil; lia.
Qed.

Lemma findings_bounded_by_length_witness :
  risks (file_record "a.py" []) = []
  ∧ raw_imports (file_record "a.py" []) = [].
Proof.
  apply (findings_bounded_by_length "a.py" []). reflexivity.
Defined.

(** X4. A Python, Java or Groovy file has at most one raw import, and the
    token is one character long: the pattern starts with [^] and is used
    without [re.MULTILINE], so it can match at the start of the content
    only. *)
Theorem anchored_imports_at_most_one (f content : str) :
  import_key f ∈ [("py" : str); ("java" : str); ("groovy" : str)] →
  length (raw_imports (file_record f content)) ≤ 1
  ∧ Forall (λ tok : str, length tok = 1) (raw_imports (file_record f content)).
Proof.
  intros Hkey. cbn [raw_imports file_record].
  split; [|by apply one_group_imports_one_char].
  destruct (scan_imports_count f content) as (pat & Hle & _ & Hanch).
  pose proof (finditer_anchored false pat content (Hanch Hkey)). lia.
Qed.

Lemma anchored_imports_at_most_one_witness :
  length (raw_imports (file_record "mod.py"
            (("import os" : str) ++ newline :: ("import sys" : str)))) ≤ 1.
Proof.
  apply (anchored_imports_at_most_one "mod.py"). by_compute.
Defined.

(** ** Purpose against objectives *)

(** X5. A file whose purpose is the test-script tag has exactly one
    objective.  (The converse fails: a manifest named like a test has an
    objective and a manifest purpose.) *)
Theorem test_script_has_objective (f content : str) :
  purpose (file_record f content) = "🧪 Test Script" →
  ∃ tag, objectives (file_record f content) = [tag].
Proof.
  cbn [purpose objectives file_record].
  unfold get_file_purpose, scan_objectives, is_test_name.
  generalize (Py.lower f). intros name.
  repeat lazymatch goal with
  | |- (if Py.contains ?sub name then _ else _) = _ → _ =>
      destruct (Py.contains sub name); [discriminate|]
  end.
  destruct (Py.contains "test" name || Py.contains "spec" name).
  - intros _. destruct (Py.contains "@Test" content); [eauto|].
    destruct (Py.contains "test(" content); eauto.
  - repeat lazymatch goal with
    | |- (if Py.contains ?sub name then _ else _) = _ → _ =>
        destruct (Py.contains sub name); [discriminate|]
    | |- (if Py.contains ?sub name || _ then _ else _) = _ → _ =>
        destruct (Py.contains sub name); cbn [orb]; [discriminate|]
    end.
    discriminate.
Qed.

Lemma test_script_has_objective_witness :
  ∃ tag, objectives (file_record "login_test.rb" "puts 1") = [tag].
Proof.
  apply (test_script_has_objective "login_test.rb" "puts 1"). reflexivity.
Defined.

Example manifest_named_like_test :
  purpose (file_record "test_package.json" "{}") = "📦 Node.js Dependencies"
  ∧ objectives (file_record "test_package.json" "{}") = ["Automated Script"].
Proof. by vm_compute. Qed.

(** ** The keys of a scan *)










(** ** More on the graph *)

Lemma split_last_no_sep (sep : ascii) (s : str) :
  sep ∉ Py.split_last sep s.
Proof.
  induction s as [|c s IH]; simpl; [by intros ?%elem_of_nil|].
  destruct (existsb (Py.ascii_eqb sep) s) eqn:E; [done|].
  assert (sep ∉ s) as Hs.
  { intros Hin. apply not_true_iff_false in E. apply E.
    apply existsb_exists. exists sep.
    split; [by apply list_elem_of_In|by apply ascii_eqb_eq]. }
  destruct (Py.ascii_eqb sep c) eqn:Ec; [done|].
  apply not_elem_of_cons. split; [|done].
  intros ->. apply not_true_iff_false in Ec. apply Ec. by apply ascii_eqb_eq.
Qed.

(** X8. The edges of the graph are exactly the pairs made of the basename of
    a recorded file and the last segment of one of its raw imports, when
    that segment is longer than one character; neither end of an edge
    contains a slash. *)
Theorem graph_edges_spec (files_data : files_data_t) (e : GraphEdge) :
  (e ∈ (build_graph files_data).1 ↔
   ∃ src data imp,
     (src, data) ∈ files_data
     ∧ imp ∈ raw_imports data
     ∧ 1 < length (Py.split_last "/"%char imp)
     ∧ e = {| source := basename src;
              target := Py.split_last "/"%char imp |})
  ∧ (e ∈ (build_graph files_data).1 →
     ("/"%char ∉ source e) ∧ ("/"%char ∉ target e)).
Proof.
  assert (e ∈ (build_graph files_data).1 ↔
          ∃ src data imp, (src, data) ∈ files_data ∧ imp ∈ raw_imports data
            ∧ 1 < length (Py.split_last "/"%char imp)
            ∧ e = {| source := basename src;
                     target := Py.split_last "/"%char imp |}) as Hspec.
  { rewrite build_graph_edges. rewrite list_elem_of_In, in_flat_map. split.
    - intros ([src data] & Hitem & He). unfold file_edges in He.
      apply in_flat_map in He as (imp & Himp & He). simpl in Himp, He.
      unfold makes_edge in He.
      destruct (Nat.ltb_spec 1 (length (Py.split_last "/"%char imp)));
        [|done].
      destruct He as [<-|[]].
      exists src, data, imp. by rewrite !list_elem_of_In.
    - intros (src & data & imp & Hitem & Himp & Hlen & ->).
      exists (src, data). split; [by apply list_elem_of_In|].
      unfold file_edges. apply in_flat_map. exists imp.
      split; [by apply list_elem_of_In|]. unfold makes_edge.
      rewrite (proj2 (Nat.ltb_lt _ _) Hlen). by left. }
  split; [done|].
  intros (src & data & imp & _ & _ & _ & ->)%Hspec. simpl.
  split; apply split_last_no_sep.
Qed.

Lemma add_import_used_by (src imp : str) (acc : list GraphEdge * used_by_t)
    (tgt : str) :
  default ∅ ((add_import src acc imp).2 !! tgt) =
  default ∅ (acc.2 !! tgt)
  ∪ (if bool_decide (makes_edge imp = true
                     ∧ Py.split_last "/"%char imp = tgt)
     then {[src]} else ∅).
Proof.
  rewrite add_import_cases. destruct (makes_edge imp) eqn:E.
  - simpl. destruct (decide (Py.split_last "/"%char imp = tgt)) as [->|Hne].
    + rewrite lookup_insert_eq, bool_decide_eq_true_2 by done. done.
    + rewrite lookup_insert_ne, bool_decide_eq_false_2 by tauto.
      by rewrite union_empty_r_L.
  - rewrite bool_decide_eq_false_2 by (intros [? _]; done).
    by rewrite union_empty_r_L.
Qed.

Lemma fold_used_by (files_data : files_data_t)
    (acc : list GraphEdge * used_by_t) (src tgt : str) :
  src ∈ default ∅ ((fold_left add_file files_data acc).2 !! tgt) ↔
  src ∈ default ∅ (acc.2 !! tgt) ∨ imports_target files_data src tgt.
Proof.
  revert acc. induction files_data as [|[s0 data] fd IH]; intros acc.
  - simpl. split; [by left|].
    intros [?|(? & ? & ?%elem_of_nil & _)]; done.
  - simpl. rewrite IH. unfold add_file. simpl.
    assert (∀ imps acc,
      src ∈ default ∅ ((fold_left (add_import s0) imps acc).2 !! tgt) ↔
      src ∈ default ∅ (acc.2 !! tgt)
      ∨ (s0 = src ∧ ∃ imp, imp ∈ imps ∧ makes_edge imp = true
                      ∧ Py.split_last "/"%char imp = tgt)) as Hin.
    { clear. induction imps as [|imp imps IH]; intros acc; simpl.
      - split; [by left|]. intros [?|(_ & ? & ?%elem_of_nil & _)]; done.
      - rewrite IH, add_import_used_by, elem_of_union.
        case_bool_decide as Hd.
        + rewrite elem_of_singleton. split.
          * intros [[?| ->]|(-> & i & ? & ? & ?)]; [by left| |].
            { right. split; [done|]. exists imp.
              split; [by left|]. tauto. }
            { right. split; [done|]. exists i. split; [by right|done]. }
          * intros [?|(-> & i & [-> |?]%elem_of_cons & ? & ?)];
              [by (left; left)|by (left; right)|].
            right. split; [done|]. by exists i.
        + rewrite elem_of_empty. split.
          * intros [[?|[]]|(-> & i & ? & ? & ?)]; [by left|].
            right. split; [done|]. exists i. split; [by right|done].
          * intros [?|(-> & i & [-> |?]%elem_of_cons & ? & ?)];
              [by (left; left)|tauto|].
            right. split; [done|]. by exists i. }
    rewrite Hin. unfold imports_target. split.
    + intros [[?|(-> & imp & ? & ? & ?)]|(d & imp & ? & ? & ? & ?)].
      * by left.
      * right. exists data, imp. split; [by left|done].
      * right. exists d, imp. split; [by right|done].
    + intros [?|(d & imp & [[= -> ->]|?]%elem_of_cons & ? & ? & ?)].
      * left. by left.
      * left. right. split; [done|]. by exists imp.
      * right. exists d, imp. done.
Qed.

(** X9. The reverse index holds, for each target, exactly the relative paths
    of the recorded files with a raw import whose last segment is that
    target and is longer than one character. *)
Theorem used_by_spec (files_data : files_data_t) (src tgt : str) :
  src ∈ default ∅ ((build_graph files_data).2 !! tgt) ↔
  imports_target files_data src tgt.
Proof.
  unfold build_graph. rewrite fold_used_by. simpl.
  rewrite lookup_empty. simpl. rewrite elem_of_empty. tauto.
Qed.

Lemma imports_target_edge (files_data : files_data_t) (tgt : str) :
  (∃ src, imports_target files_data src tgt) ↔
  ∃ e, e ∈ (build_graph files_data).1 ∧ target e = tgt.
Proof.
  rewrite build_graph_edges. split.
  - intros (src & data & imp & Hitem & Himp & Hmk & Htgt).
    exists {| source := basename src; target := tgt |}. split; [|done].
    apply list_elem_of_In, in_flat_map. exists (src, data).
    split; [by apply list_elem_of_In|].
    unfold file_edges. apply in_flat_map. exists imp.
    split; [by apply list_elem_of_In|]. simpl. rewrite Hmk, Htgt. by left.
  - intros (e & He & Htgt).
    apply list_elem_of_In, in_flat_map in He as ([src data] & Hitem & He).
    unfold file_edges in He. apply in_flat_map in He as (imp & Himp & He).
    simpl in Himp, He. destruct (makes_edge imp) eqn:Hmk; [|done].
    destruct He as [<-|[]]. simpl in Htgt.
    exists src, data, imp. by rewrite !list_elem_of_In.
Qed.

Lemma used_by_nonempty (files_data : files_data_t) (tgt : str)
    (users : gset str) :
  (build_graph files_data).2 !! tgt = Some users → users ≠ ∅.
Proof.
  unfold build_graph.
  enough (∀ acc : list GraphEdge * used_by_t,
            (∀ t u, acc.2 !! t = Some u → u ≠ ∅) →
            ∀ t u, (fold_left add_file files_data acc).2 !! t = Some u → u ≠ ∅)
    as H.
  { apply H. intros t u Hu. simpl in Hu. by rewrite lookup_empty in Hu. }
  induction files_data as [|[src data] fd IH]; intros acc Hacc; [done|].
  simpl. apply IH. unfold add_file. simpl. clear IH.
  revert acc Hacc. induction (raw_imports data) as [|imp imps IHi];
    intros acc Hacc; [done|].
  simpl. apply IHi. intros t u. rewrite add_import_cases.
  destruct (makes_edge imp); [|apply Hacc]. simpl.
  destruct (decide (Py.split_last "/"%char imp = t)) as [->|Hne].
  - rewrite lookup_insert_eq. intros [= <-]. set_solver.
  - rewrite lookup_insert_ne by done. apply Hacc.
Qed.

(** X10. The targets listed in the reverse index are exactly the targets of
    the edges, and the set stored for a target is never empty and holds
    relative paths of recorded files only. *)
Theorem used_by_keys_are_edge_targets (files_data : files_data_t) (tgt : str) :
  (is_Some ((build_graph files_data).2 !! tgt) ↔
   ∃ e, e ∈ (build_graph files_data).1 ∧ target e = tgt)
  ∧ (∀ users, (build_graph files_data).2 !! tgt = Some users →
       users ≠ ∅ ∧ ∀ src, src ∈ users → src ∈ map fst files_data).
Proof.
  split.
  - rewrite <- imports_target_edge. split.
    + intros [users Hu].
      pose proof (used_by_nonempty _ _ _ Hu) as Hne.
      apply set_choose_L in Hne as [src Hsrc]. exists src.
      assert (src ∈ default ∅ ((build_graph files_data).2 !! tgt)) as Hin
        by (by rewrite Hu).
      apply (fold_used_by files_data ([], ∅) src tgt) in Hin as [Hin|?];
        [|done].
      simpl in Hin. rewrite lookup_empty in Hin. set_solver.
    + intros [src Hsrc].
      assert (src ∈ default ∅ ((build_graph files_data).2 !! tgt)) as Hin.
      { apply (fold_used_by files_data ([], ∅) src tgt). by right. }
      destruct ((build_graph files_data).2 !! tgt); [done|].
      by apply elem_of_empty in Hin.
  - intros users Hu. split; [by eapply used_by_nonempty|].
    intros src Hsrc.
    assert (src ∈ default ∅ ((build_graph files_data).2 !! tgt)) as Hin
      by (by rewrite Hu).
    apply (fold_used_by files_data ([], ∅) src tgt) in Hin as [Hin|Hin].
    + simpl in Hin. rewrite lookup_empty in Hin. set_solver.
    + destruct Hin as (data & imp & Hitem & _).
      apply list_elem_of_fmap. by exists (src, data).
Qed.

(** X11. The graph of two collections put one after the other is the graph of
    the first followed by that of the second: the edge lists are
    concatenated and the reverse-index sets are united target by target. *)
Theorem graph_of_concatenation (fd1 fd2 : files_data_t) :
  (build_graph (fd1 ++ fd2)).1
    = (build_graph fd1).1 ++ (build_graph fd2).1
  ∧ ∀ tgt,
      default ∅ ((build_graph (fd1 ++ fd2)).2 !! tgt)
      = default ∅ ((build_graph fd1).2 !! tgt)
        ∪ default ∅ ((build_graph fd2).2 !! tgt).
Proof.
  split.
  - rewrite !build_graph_edges. apply flat_map_app.
  - intros tgt. apply set_eq. intros src. rewrite elem_of_union.
    unfold build_graph. rewrite !fold_used_by. simpl.
    rewrite lookup_empty. simpl. rewrite elem_of_empty.
    unfold imports_target. split.
    + intros [[]|(d & imp & [?|?]%elem_of_app & ?)].
      * left. right. by exists d, imp.
      * right. right. by exists d, imp.
    + intros [[[]|(d & imp & ? & ?)]|[[]|(d & imp & ? & ?)]];
        right; exists d, imp; (split; [|done]); apply elem_of_app; tauto.
Qed.

(** ** The counters of the report *)

Lemma scan_objectives_length (f content : str) :
  length (scan_objectives f content) ≤ 1.
Proof.
  unfold scan_objectives. destruct (is_test_name f); [|simpl; lia].
  destruct (Py.contains "@Test" content); [simpl; lia|].
  destruct (Py.contains "test(" content); simpl; lia.
Qed.

(** X12. For the records of any scan the test counter of the report does not
    exceed the file counter. *)
Theorem report_counters (root : option node) :
  total_tests (scan_files root) ≤ total_files (scan_files root).
Proof.
  unfold total_tests, total_files.
  assert (Forall (λ item : str * FileRecord, length (objectives item.2) ≤ 1)
                 (scan_files root)) as Hall.
  { apply Forall_forall.
    intros item (step & _ & f & content & _ & _ & ->)%scan_files_records.
    apply scan_objectives_length. }
  induction Hall as [|item fd Hitem _ IH]; simpl; lia.
Qed.

(** ** The hub ranking *)

Lemma insert_hub_perm (x : str * gset str) (l : list (str * gset str)) :
  insert_hub x l ≡ₚ x :: l.
Proof.
  induction l as [|y l IH]; [done|]. simpl.
  destruct (size x.2 <? size y.2); [|done].
  rewrite IH. apply Permutation_swap.
Qed.

Lemma sorted_hubs_perm (items : list (str * gset str)) :
  sorted_hubs items ≡ₚ items.
Proof.
  induction items as [|x items IH]; [done|].
  simpl. by rewrite insert_hub_perm, IH.
Qed.

Lemma insert_hub_sorted (x : str * gset str) (l : list (str * gset str)) :
  StronglySorted outranks l → StronglySorted outranks (insert_hub x l).
Proof.
  induction 1 as [|y l Hl IH Hy]; simpl; [repeat constructor|].
  destruct (Nat.ltb_spec (size x.2) (size y.2)).
  - constructor; [done|]. rewrite insert_hub_perm.
    constructor; [unfold outranks; lia|done].
  - constructor; [by constructor|].
    constructor; [unfold outranks; lia|].
    eapply Forall_impl; [exact Hy|]. unfold outranks. intros z. lia.
Qed.

Lemma sorted_hubs_sorted (items : list (str * gset str)) :
  StronglySorted outranks (sorted_hubs items).
Proof.
  induction items as [|x items IH]; [constructor|].
  simpl. by apply insert_hub_sorted.
Qed.

Lemma insert_hub_stable (n : nat) (x : str * gset str)
    (l : list (str * gset str)) :
  filter (λ h, size h.2 = n) (insert_hub x l)
  = filter (λ h, size h.2 = n) (x :: l).
Proof.
  induction l as [|y l IH]; [done|]. simpl.
  destruct (Nat.ltb_spec (size x.2) (size y.2)); [|done].
  rewrite (filter_cons _ y), IH, !filter_cons.
  repeat case_decide; try done; lia.
Qed.

(** X13. The hub ranking of the report lists at most six targets, the six
    with the most references: the list has min(6, n) entries in
    non-increasing order of reference count, every target left out has no
    more references than any listed one, and before the cut targets with
    the same count keep the order they have in the reverse index. *)
Theorem critical_hubs_ranking (items : list (str * gset str)) :
  length (critical_hubs items) = 6 `min` length items
  ∧ StronglySorted outranks (critical_hubs items)
  ∧ (∃ rest, critical_hubs items ++ rest ≡ₚ items
             ∧ Forall (λ h, Forall (outranks h) rest) (critical_hubs items))
  ∧ critical_hubs items = take 6 (sorted_hubs items)
  ∧ ∀ n, filter (λ h, size h.2 = n) (sorted_hubs items)
         = filter (λ h, size h.2 = n) items.
Proof.
  pose proof (sorted_hubs_sorted items) as Hsorted.
  pose proof (sorted_hubs_perm items) as Hperm.
  unfold critical_hubs. split; [|split; [|split; [|split; [done|]]]].
  - rewrite length_take, (Permutation_length Hperm). lia.
  - rewrite <- (take_drop 6 (sorted_hubs items)) in Hsorted.
    by apply StronglySorted_app_1_l in Hsorted.
  - exists (drop 6 (sorted_hubs items)). rewrite take_drop. split; [done|].
    rewrite <- (take_drop 6 (sorted_hubs items)) in Hsorted.
    apply StronglySorted_app in Hsorted as (Hcross & _ & _).
    apply Forall_forall. intros h Hh. apply Forall_forall. intros x Hx.
    by apply Hcross.
  - intros n. induction items as [|x items IH]; [done|].
    simpl. rewrite insert_hub_stable, !filter_cons, IH.
    + done.
    + apply sorted_hubs_sorted.
    + apply sorted_hubs_perm.
Qed.

(** X14. Whatever the iteration order of the reverse index, every hub listed
    for the graph of a collection has at least one referencing file, names a
    target longer than one character and is the target of an edge. *)
Theorem hubs_have_references (files_data : files_data_t)
    (items : list (str * gset str)) :
  items ≡ₚ map_to_list (build_graph files_data).2 →
  Forall (λ h : str * gset str,
      1 ≤ size h.2
      ∧ 1 < length h.1
      ∧ ∃ e, e ∈ (build_graph files_data).1 ∧ target e = h.1)
    (critical_hubs items).
Proof.
  intros Hitems. apply Forall_forall. intros [tgt users] Hh.
  assert ((build_graph files_data).2 !! tgt = Some users) as Hu.
  { apply elem_of_map_to_list. rewrite <- Hitems, <- (sorted_hubs_perm items).
    unfold critical_hubs in Hh. by eapply subseteq_take. }
  simpl. split; [|split].
  - pose proof (used_by_nonempty _ _ _ Hu) as Hne.
    apply set_choose_L in Hne as [src Hsrc].
    assert (size users ≠ 0); [|lia].
    intros Hz%size_empty_inv. set_solver.
  - destruct (build_graph_long files_data) as [_ Hkeys]. apply Hkeys. eauto.
  - apply imports_target_edge.
    pose proof (used_by_nonempty _ _ _ Hu) as Hne.
    apply set_choose_L in Hne as [src Hsrc]. exists src.
    assert (src ∈ default ∅ ((build_graph files_data).2 !! tgt)) as Hin
      by (by rewrite Hu).
    apply (fold_used_by files_data ([], ∅) src tgt) in Hin as [Hin|?];
      [|done].
    simpl in Hin. rewrite lookup_empty in Hin. set_solver.
Qed.

Lemma hubs_have_references_witness :
  Forall (λ h : str * gset str, 1 ≤ size h.2 ∧ 1 < length h.1
            ∧ ∃ e, e ∈ (build_graph sample_files_data).1 ∧ target e = h.1)
    (critical_hubs (map_to_list (build_graph sample_files_data).2)).
Proof.
  apply (hubs_have_references sample_files_data). reflexivity.
Defined.

(** ** The heuristic summary *)

Lemma heuristic_step_spec (acc : gset string * list string)
    (item : str * FileRecord) :
  heuristic_step acc item =
  (acc.1 ∪ list_to_set (stack_of (purpose item.2)),
   acc.2 ++ capabilities_of (purpose item.2)).
Proof.
  unfold heuristic_step, stack_of, capabilities_of.
  destruct (Py.contains "Node.js" _), (Py.contains "Maven" _),
    (Py.contains "Python" _), (Py.contains "Docker" _),
    (Py.contains "Playwright" _), (Py.contains "Jenkins" _);
    simpl; f_equal; rewrite <- ?app_assoc, ?app_nil_r, ?union_empty_r_L,
      <- ?(assoc_L (∪)); done.
Qed.

Lemma heuristic_summary_spec (files_data : files_data_t) :
  (∀ s, s ∈ (heuristic_summary files_data).1 ↔
        ∃ item, item ∈ files_data ∧ s ∈ stack_of (purpose item.2))
  ∧ (heuristic_summary files_data).2
    = flat_map (λ item : str * FileRecord, capabilities_of (purpose item.2))
               files_data.
Proof.
  unfold heuristic_summary.
  enough (∀ acc,
    (∀ s, s ∈ (fold_left heuristic_step files_data acc).1 ↔
          s ∈ acc.1 ∨ ∃ item, item ∈ files_data ∧ s ∈ stack_of (purpose item.2))
    ∧ (fold_left heuristic_step files_data acc).2
      = acc.2 ++ flat_map (λ item : str * FileRecord,
                             capabilities_of (purpose item.2)) files_data)
    as H.
  { destruct (H (∅, [])) as [H1 H2]. split; [|done].
    intros s. rewrite H1. simpl. rewrite elem_of_empty. tauto. }
  induction files_data as [|item fd IH]; intros acc.
  - simpl. rewrite app_nil_r. split; [|done]. intros s. split; [by left|].
    intros [?|(? & ?%elem_of_nil & _)]; done.
  - simpl. rewrite heuristic_step_spec.
    destruct (IH (acc.1 ∪ list_to_set (stack_of (purpose item.2)),
                  acc.2 ++ capabilities_of (purpose item.2))) as [H1 H2].
    simpl in H1, H2. split.
    + intros s. rewrite H1, elem_of_union, elem_of_list_to_set. split.
      * intros [[?|?]|(i & ? & ?)]; [by left| |].
        { right. exists item. split; [by left|done]. }
        { right. exists i. split; [by right|done]. }
      * intros [?|(i & [->|?]%elem_of_cons & ?)].
        { by left; left. }
        { by left; right. }
        { right. by exists i. }
    + by rewrite H2, <- app_assoc.
Qed.

Lemma purpose_range (f content : str) :
  get_file_purpose f content ∈ ALL_PURPOSES.
Proof.
  unfold get_file_purpose. generalize (Py.lower f). intros name.
  cascade name; by_compute.
Qed.

Lemma tables_agree :
  Forall (λ p,
      stack_of p = map fst (filter (λ row, row.2 = p) STACK_TABLE)
      ∧ capabilities_of p
        = map fst (filter (λ row, row.2 = p) CAPABILITY_TABLE))
    ALL_PURPOSES.
Proof. by_compute. Qed.

Lemma table_row (table : list (string * string)) (x p : string) :
  x ∈ map fst (filter (λ row, row.2 = p) table) ↔ (x, p) ∈ table.
Proof.
  rewrite list_elem_of_fmap. split.
  - intros ([x' p'] & -> & [Hp Hin]%list_elem_of_filter).
    simpl in Hp. by subst.
  - intros Hin. exists (x, p). split; [done|].
    by apply list_elem_of_filter.
Qed.

(** X15. For the records of any scan, the heuristic summary names a
    technology exactly when some record has a purpose tag that the table
    pairs with it, and a capability likewise: Node.js for a package.json,
    Java (Maven) for a pom.xml, Python for a requirements file or a Python
    source, Docker for a docker-compose file only, Playwright for its
    config, Jenkins for a Jenkinsfile.  A Gradle build, a Dockerfile or a
    Java source adds nothing. *)
Theorem heuristic_summary_of_scan (root : option node) :
  (∀ tech, tech ∈ (heuristic_summary (scan_files root)).1 ↔
     ∃ item, item ∈ scan_files root
             ∧ (tech, purpose item.2) ∈ STACK_TABLE)
  ∧ (∀ cap, cap ∈ (heuristic_summary (scan_files root)).2 ↔
       ∃ item, item ∈ scan_files root
               ∧ (cap, purpose item.2) ∈ CAPABILITY_TABLE).
Proof.
  destruct (heuristic_summary_spec (scan_files root)) as [Hstack Hcaps].
  assert (∀ item, item ∈ scan_files root →
            stack_of (purpose item.2)
              = map fst (filter (λ row, row.2 = purpose item.2) STACK_TABLE)
            ∧ capabilities_of (purpose item.2)
              = map fst (filter (λ row, row.2 = purpose item.2)
                                CAPABILITY_TABLE)) as Htab.
  { intros item (step & _ & f & content & _ & _ & ->)%scan_files_records.
    pose proof tables_agree as Hall.
    eapply Forall_forall in Hall; [exact Hall|].
    cbn [snd purpose file_record]. apply purpose_range. }
  split.
  - intros tech. rewrite Hstack. split.
    + intros (item & Hitem & Hin). exists item. split; [done|].
      rewrite (proj1 (Htab item Hitem)) in Hin. by apply table_row.
    + intros (item & Hitem & Hin). exists item. split; [done|].
      rewrite (proj1 (Htab item Hitem)). by apply table_row.
  - intros cap. rewrite Hcaps, list_elem_of_In, in_flat_map. split.
    + intros (item & Hitem%list_elem_of_In & Hin%list_elem_of_In).
      exists item. split; [done|].
      rewrite (proj2 (Htab item Hitem)) in Hin. by apply table_row.
    + intros (item & Hitem & Hin). exists item.
      split; [by apply list_elem_of_In|]. apply list_elem_of_In.
      rewrite (proj2 (Htab item Hitem)). by apply table_row.
Qed.

(** ** Witnesses of the import lemmas *)

Lemma es_imports_first_group_witness :
  scan_imports "app.js" "const fs = require('fs')"
  = group_tokens es_import "const fs = require('fs')".
Proof.
  apply (es_imports_first_group "app.js" "const fs = require('fs')").
  right. reflexivity.
Defined.

Lemma one_group_files_make_no_edges_witness :
  file_edges ("src/a.py" : str, file_record "a.py" "import os") = [].
Proof.
  apply (one_group_files_make_no_edges "src/a.py" "a.py" "import os").
  by_compute.
Defined.

(** ** The form of the relative paths *)

Lemma replace_removes (a b : ascii) (s : str) :
  a ≠ b → a ∉ Py.replace a b s.
Proof.
  intros Hab. unfold Py.replace.
  intros (c & Hc & _)%list_elem_of_fmap.
  destruct (Py.ascii_eqb a c) eqn:E; [done|].
  apply not_true_iff_false in E. apply E. by apply ascii_eqb_eq.
Qed.

(** X16. No relative path recorded by a scan contains a backslash. *)
Theorem scan_keys_forward_slashes (root : option node) :
  Forall (λ key : str, "\"%char ∉ key) (map fst (scan_files root)).
Proof.
  apply Forall_forall. intros key (item & -> & Hitem)%list_elem_of_fmap.
  apply scan_files_records in Hitem as (step & _ & f & content & _ & _ & ->).
  simpl. unfold rel_path. by apply replace_removes.
Qed.

(** ** Witnesses on the sample collection *)

Lemma graph_edges_spec_witness :
  ("/"%char ∉ ("login.js" : str)) ∧ ("/"%char ∉ ("auth" : str)).
Proof.
  apply (proj2 (graph_edges_spec sample_files_data
                  {| source := "login.js"; target := "auth" |})).
  by_compute.
Defined.

Lemma used_by_keys_are_edge_targets_witness :
  ({[ ("src/login.js" : str) ]} : gset str) ≠ ∅.
Proof.
  apply (proj2 (used_by_keys_are_edge_targets sample_files_data "auth")
               {[ ("src/login.js" : str) ]}).
  by vm_compute.
Defined.

(** ** The risk table of the report *)

(** X19. In the risk table of the report a finding of a scan gets the danger
    badge exactly when it is an API-key or secret finding; every other
    finding, a hardcoded password included, gets the warning badge. *)
Theorem danger_badge_for_secrets_only (content : str) :
  Forall (λ rf,
      (badge rf = "bg-danger" ↔ risk_type rf = "🛑 API Key / Secret")
      ∧ (badge rf = "bg-warning text-dark"
         ↔ risk_type rf ≠ "🛑 API Key / Secret"))
    (scan_risks content).
Proof.
  apply Forall_forall. intros rf Hrf.
  apply list_elem_of_In, in_flat_map in Hrf as (entry & Hentry & Hrf).
  apply list_elem_of_In, list_elem_of_fmap in Hrf as (m & -> & _).
  unfold RISK_PATTERNS in Hentry.
  repeat (destruct Hentry as [<-|Hentry]; [by vm_compute|]).
  destruct Hentry.
Qed.
